(** * MYRSSHUB: the stockpicker and rotation-monitor routes

    A shallow embedding of [lib/routes/stockpicker/index.ts] and
    [lib/routes/rotation-monitor/index.ts].  Both handlers list a directory,
    keep the entries whose names match fixed patterns, parse the CSV files
    with a split-based parser and assemble a feed object.

    JavaScript strings are sequences of UTF-16 code units, exceptions are an
    error monad, the [Record<string, string>] objects built by [parseCSV] are
    the finite maps of their own properties, and the [Map] that groups files
    by date is an insertion ordered association list.  What the handlers
    obtain from Node (the file system, [node:path], [process.env]) and from
    markdown-it is a type class [Node]. *)

From Stdlib Require Import NArith ZArith Ascii String DecimalString Sorted.
From stdpp Require Import gmap list.

Local Open Scope N_scope.

(** ** JavaScript values used by the routes *)

Module JS.

(** A string is its list of UTF-16 code units. *)
Abbreviation jsstring := (list N).

Definition ch (a : ascii) : N := N_of_ascii a.

(** The line feed. *)
Definition LF : N := 0x0A.

(** Source literals are written as Rocq strings, whose characters are the
    bytes of the UTF-8 encoding; [utf16_of_utf8] decodes them to code units
    (a surrogate pair for a code point above U+FFFF). *)
Fixpoint utf16_of_utf8 (bs : list N) : jsstring :=
  match bs with
  | [] => []
  | b0 :: r0 =>
      if b0 <? 0x80 then b0 :: utf16_of_utf8 r0
      else if b0 <? 0xE0 then
        match r0 with
        | b1 :: r1 =>
            N.lor (N.shiftl (N.land b0 0x1F) 6) (N.land b1 0x3F)
              :: utf16_of_utf8 r1
        | _ => [0xFFFD]
        end
      else if b0 <? 0xF0 then
        match r0 with
        | b1 :: b2 :: r2 =>
            N.lor (N.shiftl (N.land b0 0x0F) 12)
              (N.lor (N.shiftl (N.land b1 0x3F) 6) (N.land b2 0x3F))
              :: utf16_of_utf8 r2
        | _ => [0xFFFD]
        end
      else
        match r0 with
        | b1 :: b2 :: b3 :: r3 =>
            let cp :=
              N.lor (N.shiftl (N.land b0 0x07) 18)
                (N.lor (N.shiftl (N.land b1 0x3F) 12)
                   (N.lor (N.shiftl (N.land b2 0x3F) 6) (N.land b3 0x3F))) in
            let v := cp - 0x10000 in
            (0xD800 + N.shiftr v 10) :: (0xDC00 + N.land v 0x3FF)
              :: utf16_of_utf8 r3
        | _ => [0xFFFD]
        end
  end.

Definition js (s : string) : jsstring :=
  utf16_of_utf8 (List.map N_of_ascii (list_ascii_of_string s)).

#[global] Arguments ch : simpl never.
#[global] Arguments js : simpl never.

(** *** Exceptions: a computation returns a value or throws *)

Inductive outcome (A : Type) : Type :=
| Returned (a : A)
| Thrown (message : jsstring).
Arguments Returned {A} a.
Arguments Thrown {A} message.

#[global] Instance outcome_ret : MRet outcome := fun _ a => Returned a.
#[global] Instance outcome_fmap : FMap outcome := fun _ _ f m =>
  match m with
  | Returned a => Returned (f a)
  | Thrown e => Thrown e
  end.
#[global] Instance outcome_bind : MBind outcome := fun _ _ f m =>
  match m with
  | Returned a => f a
  | Thrown e => Thrown e
  end.

(** [Promise.all(xs.map(async f))]: the results in the order of [xs], or a
    rejection.  When several of the promises reject, which rejection wins
    depends on timing; the model reports the first one in list order. *)
Definition promise_all {A B} (f : A → outcome B) (xs : list A)
  : outcome (list B) := mapM f xs.

(** *** String.prototype.trim *)

(** WhiteSpace and LineTerminator code units of ECMAScript. *)
Definition is_white_space (c : N) : bool :=
  bool_decide (c ∈ [0x09; 0x0A; 0x0B; 0x0C; 0x0D; 0x20; 0xA0; 0x1680;
                    0x2028; 0x2029; 0x202F; 0x205F; 0x3000; 0xFEFF])
  || ((0x2000 <=? c) && (c <=? 0x200A)).

Fixpoint trimStart (s : jsstring) : jsstring :=
  match s with
  | [] => []
  | c :: s' => if is_white_space c then trimStart s' else s
  end.

Definition trimEnd (s : jsstring) : jsstring :=
  rev (trimStart (rev s)).

Definition trim (s : jsstring) : jsstring := trimEnd (trimStart s).

(** *** String.prototype.split with a one-unit separator *)

Fixpoint split_go (sep : N) (s : jsstring) : jsstring * list jsstring :=
  match s with
  | [] => ([], [])
  | c :: s' =>
      let '(piece, pieces) := split_go sep s' in
      if c =? sep then ([], piece :: pieces) else (c :: piece, pieces)
  end.

Definition split (sep : N) (s : jsstring) : list jsstring :=
  let '(piece, pieces) := split_go sep s in piece :: pieces.

(** [s.split(sep, limit)] *)
Definition split_limit (sep : N) (limit : nat) (s : jsstring)
  : list jsstring := take limit (split sep s).

(** [s.slice(i, j)] for [0 <= i <= j]. *)
Definition slice (i j : nat) (s : jsstring) : jsstring :=
  take (j - i) (drop i s).

Definition endsWith (s suffix : jsstring) : bool :=
  bool_decide (drop (length s - length suffix) s = suffix).

Fixpoint startsWith (s prefix : jsstring) {struct prefix} : bool :=
  match prefix, s with
  | [], _ => true
  | x :: prefix', y :: s' => (x =? y) && startsWith s' prefix'
  | _ :: _, [] => false
  end.

(** [s.includes(needle)] *)
Fixpoint includes (s needle : jsstring) : bool :=
  startsWith s needle
  || match s with
     | [] => false
     | _ :: s' => includes s' needle
     end.

(** [s.replace(c, d)] with string arguments of one unit: the first
    occurrence only. *)
Fixpoint replace_first (c d : N) (s : jsstring) : jsstring :=
  match s with
  | [] => []
  | x :: s' => if x =? c then d :: s' else x :: replace_first c d s'
  end.

Definition is_line_terminator (c : N) : bool :=
  bool_decide (c ∈ [0x0A; 0x0D; 0x2028; 0x2029]).

(** [toUpperCase] on one code unit.  Exact on ASCII, which is all the
    handler applies it to (the unit comes from a name matched by [\w+]). *)
Definition toUpperCase_unit (c : N) : jsstring :=
  if (0x61 <=? c) && (c <=? 0x7A) then [c - 0x20] else [c].

(** [s.replace(/^./, (str) => str.toUpperCase())] *)
Definition capitalize_first (s : jsstring) : jsstring :=
  match s with
  | [] => []
  | c :: s' => if is_line_terminator c then s else toUpperCase_unit c ++ s'
  end.

(** *** Character classes of the regular expressions *)

Definition is_digit (c : N) : bool := (0x30 <=? c) && (c <=? 0x39).

Definition is_word (c : N) : bool :=
  is_digit c || ((0x41 <=? c) && (c <=? 0x5A))
  || ((0x61 <=? c) && (c <=? 0x7A)) || (c =? 0x5F).

(** *** Number.parseInt and template literals *)

Fixpoint digits_value (acc : N) (s : jsstring) : N :=
  match s with
  | c :: s' => if is_digit c then digits_value (10 * acc + (c - 0x30)) s' else acc
  | [] => acc
  end.

(** [Number.parseInt(s)] for a string that carries no sign, leading white
    space or radix prefix: the value of the longest prefix of decimal
    digits, [None] (NaN) when there is none. *)
Definition parseInt (s : jsstring) : option Z :=
  match s with
  | c :: _ => if is_digit c then Some (Z.of_N (digits_value 0 s)) else None
  | [] => None
  end.

(** A non-negative integer inside a template literal. *)
Definition show_nat (n : nat) : jsstring :=
  List.map N_of_ascii
    (list_ascii_of_string (NilEmpty.string_of_uint (Nat.to_uint n))).

(** A property read inside a template literal: [undefined] prints as the
    word. *)
Definition show (v : option jsstring) : jsstring :=
  default (js "undefined") v.

(** Truthiness of a string or of a possibly undefined/null string. *)
Definition truthy_string (s : jsstring) : bool :=
  match s with [] => false | _ => true end.

Definition truthy (v : option jsstring) : bool :=
  match v with Some s => truthy_string s | None => false end.

(** [v || d] *)
Definition or_else (v : option jsstring) (d : jsstring) : jsstring :=
  match v with
  | Some (c :: s) => c :: s
  | _ => d
  end.

(** *** String.prototype.localeCompare

    The handlers compare 8-digit date prefixes only.  On digit strings of
    equal length the collation order is the code unit order, which is what
    this definition computes. *)
Fixpoint localeCompare (a b : jsstring) : comparison :=
  match a, b with
  | [], [] => Eq
  | [], _ :: _ => Lt
  | _ :: _, [] => Gt
  | x :: a', y :: b' =>
      match x ?= y with
      | Eq => localeCompare a' b'
      | o => o
      end
  end.

(** *** Array.prototype.sort / toSorted

    The sort is stable and the comparators used here are total preorders, so
    the result is the stable insertion of each element: [cmp x y = Gt] is a
    positive comparator result, [x] goes after [y]. *)
Fixpoint insert_sorted {A} (cmp : A → A → comparison) (x : A) (l : list A)
  : list A :=
  match l with
  | [] => [x]
  | y :: l' =>
      match cmp x y with
      | Gt => y :: insert_sorted cmp x l'
      | _ => x :: l
      end
  end.

Definition array_sort {A} (cmp : A → A → comparison) (l : list A) : list A :=
  foldr (insert_sorted cmp) [] l.

(** *** Date *)

Inductive Date : Type :=
| DateOf (year monthIndex day : Z)   (* new Date(year, monthIndex, day) *)
| InvalidDate                        (* a NaN argument *)
| DateNow.                           (* new Date() *)

Definition new_Date (year monthIndex day : option Z) : Date :=
  match year, monthIndex, day with
  | Some y, Some m, Some d => DateOf y m d
  | _, _, _ => InvalidDate
  end.

Definition is_leap (y : Z) : bool :=
  ((y mod 4 =? 0) && negb (y mod 100 =? 0) || (y mod 400 =? 0))%Z.

Definition days_in_month (y m : Z) : Z :=
  (if m =? 1 then (if is_leap y then 29 else 28)
   else if bool_decide (m ∈ [3; 5; 8; 10]) then 30 else 31)%Z.

(** The local calendar date (year, month 1-12, day) of a [Date] built from
    arguments that need no normalisation. *)
Definition calendar_date (d : Date) : option (Z * Z * Z) :=
  match d with
  | DateOf y m dd =>
      if ((100 <=? y) && (0 <=? m) && (m <=? 11)
          && (1 <=? dd) && (dd <=? days_in_month y m))%Z
      then Some (y, (m + 1)%Z, dd) else None
  | _ => None
  end.

(** *** Objects used as records

    The own properties of an object created by [{}], as a finite map.
    [record[key] = value] with a string [value] creates or overwrites the own
    property [key], except for the key [__proto__]: that name is the
    accessor inherited from [Object.prototype], whose setter ignores a value
    that is neither an object nor [null], so the assignment does nothing. *)
Definition set_property (record : gmap jsstring jsstring)
    (key value : jsstring) : gmap jsstring jsstring :=
  if bool_decide (key = js "__proto__") then record
  else <[key := value]> record.

(** *** Map with string keys: entries in insertion order *)

Fixpoint map_get {V} (k : jsstring) (m : list (jsstring * V)) : option V :=
  match m with
  | [] => None
  | (k', v) :: m' => if bool_decide (k' = k) then Some v else map_get k m'
  end.

Definition map_has {V} (k : jsstring) (m : list (jsstring * V)) : bool :=
  bool_decide (is_Some (map_get k m)).

(** [m.set(k, v)]: an existing key keeps its position. *)
Fixpoint map_set {V} (k : jsstring) (v : V) (m : list (jsstring * V))
  : list (jsstring * V) :=
  match m with
  | [] => [(k, v)]
  | (k', v') :: m' =>
      if bool_decide (k' = k) then (k, v) :: m' else (k', v') :: map_set k v m'
  end.

(** *** Directory entries, feed objects, the Node environment *)

Record Dirent : Type := { name : jsstring; isFile : bool }.

End JS.

Import JS.

Module Item.
Record t : Type := {
  title : jsstring;
  description : jsstring;
  pubDate : Date;
  category : list jsstring;
}.
End Item.

Module Feed.
Record t : Type := {
  title : jsstring;
  link : option jsstring;
  description : jsstring;
  item : list Item.t;
}.
End Feed.

(** The request context: the route parameter and the [status] property. *)
Record Ctx : Type := {
  req_param_directory : jsstring;
  status : option N;
}.

(** What the handlers call outside this repository. *)
Class Node : Type := {
  readdir : jsstring → outcome (list Dirent);
  readFile : jsstring → outcome jsstring;
  path_join : jsstring → jsstring → jsstring;
  path_basename : jsstring → jsstring;
  env_ROTATION_IMAGE_BASE_URL : option jsstring;
  md_render : jsstring → jsstring;
}.

(** A directory entry name: not empty, no separator, not a dot entry. *)
Definition entry_name (n : jsstring) : Prop :=
  n ≠ [] ∧ (ch "/" ∉ n) ∧ n ≠ js "." ∧ n ≠ js "..".

(** The two facts about [node:path] the rotation monitor relies on. *)
Class NodeLaws `{Node} : Prop := {
  path_join_nonempty : ∀ dir n, path_join dir n ≠ [];
  path_basename_join :
    ∀ dir n, entry_name n → path_basename (path_join dir n) = n;
}.

(** ** lib/routes/stockpicker/index.ts *)

Module StockPicker.
Section route.
Context `{Node}.

(** [parseCSV]: [lines[0]] is [undefined] on an empty array, and calling
    [split] on it would throw a TypeError. *)
Definition record_of (headers : list jsstring) (line : jsstring)
  : gmap jsstring jsstring :=
  let values := trim <$> split (ch ",") line in
  foldl (λ record '(index, header),
           set_property record header (or_else (values !! index) []))
    ∅ (imap pair headers).

Definition parseCSV (content : jsstring)
  : outcome (list (gmap jsstring jsstring)) :=
  let lines := split LF (trim content) in
  match lines !! 0%nat with
  | None => Thrown (js "TypeError: Cannot read properties of undefined")
  | Some line0 =>
      let headers := trim <$> split (ch ",") line0 in
      Returned
        (record_of headers
           <$> List.filter (λ line, negb (bool_decide (trim line = [])))
                 (drop 1 lines))
  end.

(** [/^\d{8}_\w+_selected_stocks\.csv$/.test(name)] *)
Definition selected_suffix : jsstring := js "_selected_stocks.csv".

Definition re_selected_stocks (name : jsstring) : bool :=
  let rest := drop 9 name in
  let k := (length rest - length selected_suffix)%nat in
  bool_decide (length (take 8 name) = 8%nat)
  && forallb is_digit (take 8 name)
  && bool_decide (name !! 8%nat = Some (ch "_"))
  && bool_decide (1 ≤ k)%nat
  && forallb is_word (take k rest)
  && bool_decide (drop k rest = selected_suffix).

Definition is_stock_file (file : Dirent) : bool :=
  isFile file && endsWith (name file) (js ".csv")
  && re_selected_stocks (name file).

(** The comparator of [stockFiles.sort]. *)
Definition by_date_desc (a b : Dirent) : comparison :=
  let dateA := slice 0 8 (name a) in
  let dateB := slice 0 8 (name b) in
  localeCompare dateB dateA.

Definition record_lines (index : nat) (record : gmap jsstring jsstring)
  : jsstring :=
  let ts_code := record !! js "ts_code" in
  let target_weight := record !! js "target_weight" in
  let name := record !! js "name" in
  let industry := record !! js "industry" in
  let pe := record !! js "pe" in
  let pe_percentile := record !! js "pe_percentile" in
  show_nat (index + 1) ++ js ". **" ++ show name ++ js "** ("
    ++ show ts_code ++ js ")" ++ [LF]
  ++ js "   - 所属行业: " ++ show industry ++ [LF]
  ++ js "   - 选股权重: " ++ show target_weight ++ [LF]
  ++ (if truthy pe then js "   - PE: " ++ show pe ++ [LF] else [])
  ++ (if truthy pe_percentile
      then js "   - PE百分位: " ++ show pe_percentile ++ [LF] else [])
  ++ [LF].

(** The body of [stockFiles.map(async (file) => ...)]. *)
Definition make_item (directory : jsstring) (file : Dirent)
  : outcome Item.t :=
  let filePath := path_join directory (name file) in
  fileContent ← readFile filePath;
  records ← parseCSV fileContent;
  let parts := split_limit (ch "_") 2 (name file) in
  let dateStr := default (js "undefined") (parts !! 0%nat) in
  let date :=
    new_Date (parseInt (slice 0 4 dateStr))
      ((λ m, m - 1)%Z <$> parseInt (slice 4 6 dateStr))
      (parseInt (slice 6 8 dateStr)) in
  match parts !! 1%nat with
  | None => Thrown (js "TypeError: Cannot read properties of undefined")
  | Some type =>
      let formattedType :=
        capitalize_first (replace_first (ch "_") (ch " ") type) in
      let description :=
        js "### " ++ formattedType ++ js " 选股结果" ++ [LF; LF]
        ++ js "**日期**: " ++ dateStr ++ [LF]
        ++ js "**选股数量**: " ++ show_nat (length records) ++ js "只"
        ++ [LF; LF]
        ++ concat (imap record_lines records) in
      Returned
        {| Item.title := dateStr ++ js " " ++ formattedType ++ js " 选股结果";
           Item.description := description;
           Item.pubDate := date;
           Item.category := [type] |}
  end.

(** The stock picker only reads [ctx]. *)
Definition handler (ctx : Ctx) : outcome Feed.t :=
  let directory := req_param_directory ctx in
  files ← readdir directory;
  let stockFiles := List.filter is_stock_file files in
  let stockFiles := array_sort by_date_desc stockFiles in
  items ← promise_all (make_item directory) stockFiles;
  Returned
    {| Feed.title := js "每日选股数据";
       Feed.link := Some directory;
       Feed.description := js "每日选股数据RSS源";
       Feed.item := items |}.

End route.
End StockPicker.

(** ** lib/routes/rotation-monitor/index.ts *)

Module RotationMonitor.
Section route.
Context `{Node}.

Definition record_of (headers : list jsstring) (line : jsstring)
  : gmap jsstring jsstring :=
  let values := (λ v, or_else (Some (trim v)) (js "-")) <$> split (ch ",") line in
  foldl (λ record '(index, header),
           set_property record header (or_else (values !! index) (js "-")))
    ∅ (imap pair headers).

Definition parseCSV (content : jsstring)
  : outcome (list (gmap jsstring jsstring)) :=
  let lines := split LF (trim content) in
  if (length lines <? 1)%nat then Returned []
  else
    match lines !! 0%nat with
    | None => Thrown (js "TypeError: Cannot read properties of undefined")
    | Some line0 =>
        let headers := trim <$> split (ch ",") line0 in
        Returned
          (record_of headers
             <$> List.filter (λ line, negb (bool_decide (trim line = [])))
                   (drop 1 lines))
    end.

(** [/^\d{8}<suffix>$/.test(name)] for a literal suffix. *)
Definition re_dated (suffix name : jsstring) : bool :=
  bool_decide (length (take 8 name) = 8%nat)
  && forallb is_digit (take 8 name)
  && bool_decide (drop 8 name = suffix).

Definition top_suffix : jsstring := js "_top_industry_stocks.csv".
Definition bottom_suffix : jsstring := js "_bottom_industry_stocks.csv".
Definition image_suffix : jsstring := js "_industry_performance_trend.png".

Definition isTopCSV (file : Dirent) : bool :=
  isFile file && endsWith (name file) (js ".csv")
  && re_dated top_suffix (name file).

Definition isBottomCSV (file : Dirent) : bool :=
  isFile file && endsWith (name file) (js ".csv")
  && re_dated bottom_suffix (name file).

Definition isImage (file : Dirent) : bool :=
  isFile file && endsWith (name file) (js ".png")
  && re_dated image_suffix (name file).

(** The values of [filesByDate]. *)
Record Group : Type := {
  top : jsstring;
  bottom : jsstring;
  image : option jsstring;
}.

Definition add_top (directory : jsstring)
    (filesByDate : list (jsstring * Group)) (file : Dirent)
  : list (jsstring * Group) :=
  let dateStr := slice 0 8 (name file) in
  let old :=
    default {| top := []; bottom := []; image := None |}
      (map_get dateStr filesByDate) in
  map_set dateStr
    {| top := path_join directory (name file);
       bottom := bottom old; image := image old |}
    filesByDate.

(** [has] followed by [get(...)!]: one lookup. *)
Definition add_bottom (directory : jsstring)
    (filesByDate : list (jsstring * Group)) (file : Dirent)
  : list (jsstring * Group) :=
  let dateStr := slice 0 8 (name file) in
  match map_get dateStr filesByDate with
  | Some old =>
      map_set dateStr
        {| top := top old;
           bottom := path_join directory (name file); image := image old |}
        filesByDate
  | None => filesByDate
  end.

Definition add_image (directory : jsstring)
    (filesByDate : list (jsstring * Group)) (file : Dirent)
  : list (jsstring * Group) :=
  let dateStr := slice 0 8 (name file) in
  match map_get dateStr filesByDate with
  | Some old =>
      map_set dateStr
        {| top := top old; bottom := bottom old;
           image := Some (path_join directory (name file)) |}
        filesByDate
  | None => filesByDate
  end.

(** The three loops that fill [filesByDate]. *)
Definition group_by_date (directory : jsstring)
    (topFiles bottomFiles imageFiles : list Dirent)
  : list (jsstring * Group) :=
  let filesByDate := foldl (add_top directory) [] topFiles in
  let filesByDate := foldl (add_bottom directory) filesByDate bottomFiles in
  foldl (add_image directory) filesByDate imageFiles.

Definition complete (entry : jsstring * Group) : bool :=
  truthy_string (top entry.2) && truthy_string (bottom entry.2).

Definition by_date_desc (a b : jsstring * Group) : comparison :=
  localeCompare b.1 a.1.

Definition stock_line (index : nat) (record : gmap jsstring jsstring)
  : jsstring :=
  show_nat (index + 1) ++ js ". **" ++ show (record !! js "name")
    ++ js "** (" ++ show (record !! js "ts_code") ++ js ")" ++ [LF].

Definition default_image_base : jsstring :=
  js "http://localhost:1200/rotation-images".

(** The chart part of the Markdown body. *)
Definition chart_section (image : option jsstring) : jsstring :=
  match image with
  | Some (c :: p) =>
      let imageFileName := path_basename (c :: p) in
      let imageUrl :=
        or_else env_ROTATION_IMAGE_BASE_URL default_image_base
          ++ js "/" ++ imageFileName in
      js "![行业表现趋势](" ++ imageUrl ++ js ")" ++ [LF; LF]
  | _ => js "> 暂无行业表现趋势图表" ++ [LF; LF]
  end.

(** The Markdown document handed to [md.render]. *)
Definition markdown_of (dateStr : jsstring) (files : Group)
    (topRecords bottomRecords : list (gmap jsstring jsstring)) : jsstring :=
  let topIndustry :=
    or_else (topRecords !! 0%nat ≫= (.!! js "industry")) (js "未知行业") in
  let bottomIndustry :=
    or_else (bottomRecords !! 0%nat ≫= (.!! js "industry")) (js "未知行业") in
  js "# 轮动行情监控" ++ [LF; LF]
  ++ js "> 📅 日期：" ++ dateStr ++ [LF; LF]
  ++ js "## 📈 当日领涨板块：" ++ topIndustry ++ [LF; LF]
  ++ js "### 📋 股票列表" ++ [LF; LF]
  ++ concat (imap stock_line topRecords)
  ++ [LF]
  ++ js "## 📊 当日高潜板块：" ++ bottomIndustry ++ [LF; LF]
  ++ js "### 📋 股票列表" ++ [LF; LF]
  ++ concat (imap stock_line bottomRecords)
  ++ [LF]
  ++ js "## 📉 行业表现趋势" ++ [LF; LF]
  ++ chart_section (image files).

(** The body of [validRotationData.map(async ([dateStr, files]) => ...)]. *)
Definition make_item (entry : jsstring * Group) : outcome Item.t :=
  let '(dateStr, files) := entry in
  let date :=
    match
      new_Date (parseInt (slice 0 4 dateStr))
        ((λ m, m - 1)%Z <$> parseInt (slice 4 6 dateStr))
        (parseInt (slice 6 8 dateStr))
    with
    | InvalidDate => DateNow
    | d => d
    end in
  topContent ← readFile (top files);
  topRecords ← parseCSV topContent;
  bottomContent ← readFile (bottom files);
  bottomRecords ← parseCSV bottomContent;
  let mdContent := markdown_of dateStr files topRecords bottomRecords in
  let htmlDescription := md_render mdContent in
  Returned
    {| Item.title := dateStr ++ js " 轮动行情监控";
       Item.description := htmlDescription;
       Item.pubDate := date;
       Item.category := [js "rotation"; js "stock"] |}.

Definition validRotationData (directory : jsstring) (files : list Dirent)
  : list (jsstring * Group) :=
  let topFiles := List.filter isTopCSV files in
  let bottomFiles := List.filter isBottomCSV files in
  let imageFiles := List.filter isImage files in
  array_sort by_date_desc
    (List.filter complete
       (group_by_date directory topFiles bottomFiles imageFiles)).

(** The handler after a successful [readdir]. *)
Definition feed_of_listing (directory : jsstring) (files : list Dirent)
  : outcome Feed.t :=
  let topFiles := List.filter isTopCSV files in
  let bottomFiles := List.filter isBottomCSV files in
  if bool_decide (length topFiles = 0%nat)
     || bool_decide (length bottomFiles = 0%nat)
  then
    Returned
      {| Feed.title := js "轮动行情监控";
         Feed.link := Some directory;
         Feed.description := js "未找到符合规则的轮动行情CSV文件";
         Feed.item := [] |}
  else
    let valid := validRotationData directory files in
    if bool_decide (length valid = 0%nat) then
      Returned
        {| Feed.title := js "轮动行情监控";
           Feed.link := Some directory;
           Feed.description := js "未找到完整的轮动行情数据";
           Feed.item := [] |}
    else
      items ← promise_all make_item valid;
      Returned
        {| Feed.title := js "轮动行情监控";
           Feed.link := Some directory;
           Feed.description :=
             js "每日轮动行情监控，包括领涨板块和高潜板块数据";
           Feed.item := items |}.

Definition handler (ctx : Ctx) : outcome (Ctx * Feed.t) :=
  let directory := req_param_directory ctx in
  match readdir directory with
  | Thrown message =>
      Returned
        ({| req_param_directory := directory; status := Some 400 |},
         {| Feed.title := js "读取失败";
            Feed.link := None;
            Feed.description :=
              js "无法读取目录: " ++ directory ++ js "，错误信息: " ++ message;
            Feed.item := [] |})
  | Returned files =>
      feed ← feed_of_listing directory files;
      Returned (ctx, feed)
  end.

End route.
End RotationMonitor.

(** ** Vocabulary of the statements *)

(** The header fields and the data lines [parseCSV] works on. *)
Definition header_fields (content : jsstring) : list jsstring :=
  trim <$> split (ch ",") (default [] (split LF (trim content) !! 0%nat)).

Definition data_lines (content : jsstring) : list jsstring :=
  List.filter (λ line, negb (bool_decide (trim line = [])))
    (drop 1 (split LF (trim content))).

(** The loop of [parseCSV] that fills a record, for any way [cell] of
    reading the cell of a column index. *)
Definition fill_record (cell : nat → jsstring) (headers : list jsstring)
  : gmap jsstring jsstring :=
  foldl (λ (record : gmap jsstring jsstring) '(index, header),
           set_property record header (cell index)) ∅ (imap pair headers).

(** The carriage return, and a text with every line feed turned into a
    carriage return and a line feed. *)
Definition CR : N := 0x0D.

Definition crlf (s : jsstring) : jsstring :=
  flat_map (λ c, if c =? LF then [CR; LF] else [c]) s.

(** The lines of a text with CRLF line ends, as [split] on the line feed
    leaves them: every line but the last ends with a carriage return. *)
Fixpoint cr_lines (lines : list jsstring) : list jsstring :=
  match lines with
  | [] => []
  | [line] => [line]
  | line :: lines' => (line ++ [CR]) :: cr_lines lines'
  end.

(** One more unit at the end of the last piece. *)
Fixpoint snoc_last (c : N) (pieces : list jsstring) : list jsstring :=
  match pieces with
  | [] => []
  | [piece] => [piece ++ [c]]
  | piece :: pieces' => piece :: snoc_last c pieces'
  end.

(** The 8-unit date prefix of a file name, as both handlers slice it. *)
Definition date_of (file : Dirent) : jsstring := slice 0 8 (name file).

Definition has_date (d : jsstring) (files : list Dirent) : bool :=
  existsb (λ file, bool_decide (date_of file = d)) files.

(** Both handlers start an item title with the date string. *)
Definition item_date (it : Item.t) : jsstring := slice 0 8 (Item.title it).

(** [date] is the date both handlers build from the 8-digit string [d]. *)
Definition date_from_digits (d : jsstring) (date : Date) : Prop :=
  ∃ y m dd,
    parseInt (slice 0 4 d) = Some y
    ∧ parseInt (slice 4 6 d) = Some m
    ∧ parseInt (slice 6 8 d) = Some dd
    ∧ date = DateOf y (m - 1) dd
    ∧ (0 ≤ y ≤ 9999 ∧ 0 ≤ m ≤ 99 ∧ 0 ≤ dd ≤ 99)%Z.

(** Items in descending order of their dates. *)
Definition dates_descending (items : list Item.t) : Prop :=
  StronglySorted (λ a b, localeCompare (item_date a) (item_date b) ≠ Lt) items.

(** The part of a stock picker file name between [YYYYMMDD_] and
    [_selected_stocks.csv]. *)
Definition type_part (name : jsstring) : jsstring :=
  let rest := drop 9 name in
  take (length rest - length StockPicker.selected_suffix) rest.

(** The type label the stock picker extracts: the piece between the first
    two underscores of the name. *)
Definition label_of (name : jsstring) : jsstring :=
  default [] (split (ch "_") (drop 9 name) !! 0%nat).

(** What [filesByDate] holds for a date once the three loops have run. *)
Definition group_of `{Node} (directory : jsstring)
    (topFiles bottomFiles imageFiles : list Dirent) (d : jsstring)
  : option RotationMonitor.Group :=
  if has_date d topFiles then
    Some
      {| RotationMonitor.top :=
           path_join directory (d ++ RotationMonitor.top_suffix);
         RotationMonitor.bottom :=
           if has_date d bottomFiles
           then path_join directory (d ++ RotationMonitor.bottom_suffix)
           else [];
         RotationMonitor.image :=
           if has_date d imageFiles
           then Some (path_join directory (d ++ RotationMonitor.image_suffix))
           else None |}
  else None.

(** A description explains an empty item list when the route never attaches
    it to a feed that has items. *)
Definition explains_empty (route : Node → Ctx → outcome Feed.t)
    (text : jsstring) : Prop :=
  ∀ (node : Node) ctx feed,
    route node ctx = Returned feed →
    Feed.description feed = text → Feed.item feed = [].

Definition stockpicker_route : Node → Ctx → outcome Feed.t :=
  λ node ctx, @StockPicker.handler node ctx.

Definition rotation_route : Node → Ctx → outcome Feed.t :=
  λ node ctx, snd <$> @RotationMonitor.handler node ctx.

(** ** An in-memory directory for the examples *)

Module Sample.

Definition join (dir n : jsstring) : jsstring := dir ++ js "/" ++ n.

Definition basename (p : jsstring) : jsstring :=
  List.last (split (ch "/") p) [].

(** One readable directory [dir]; an entry with no contents cannot be
    read. *)
Definition node (dir : jsstring) (base : option jsstring)
    (entries : list (Dirent * option jsstring)) : Node :=
  {| readdir d :=
       if bool_decide (d = dir) then Returned (fst <$> entries)
       else Thrown (js "ENOENT: no such file or directory, scandir");
     readFile p :=
       match
         List.find (λ e, bool_decide (join dir (name e.1) = p)) entries
       with
       | Some (_, Some content) => Returned content
       | _ => Thrown (js "ENOENT: no such file or directory, open")
       end;
     path_join := join;
     path_basename := basename;
     env_ROTATION_IMAGE_BASE_URL := base;
     md_render md := md |}.

Definition file (n : string) : Dirent := {| name := js n; isFile := true |}.

Definition ctx (dir : string) : Ctx :=
  {| req_param_directory := js dir; status := None |}.

(** The CSV of the stock picker example. *)
Definition stocks_csv : jsstring :=
  js "ts_code,target_weight,name,industry,pe,pe_percentile" ++ [LF]
  ++ js "000001.SZ,0.05,PingAn,Banking,10.2,50" ++ [LF].

(** A header line with a column named [__proto__] and a shorter row. *)
Definition proto_csv : jsstring := js "code,__proto__" ++ [LF] ++ js "x".

Definition industry_csv : jsstring :=
  js "ts_code,name,industry" ++ [LF]
  ++ js "000001.SZ,PingAn,Banking" ++ [LF] ++ js "000002.SZ,Vanke" ++ [LF].

(** Directories of the examples, all mounted at [/data]. *)
Definition stock_entries : list (Dirent * option jsstring) :=
  [(file "20240102_value_selected_stocks.csv", Some stocks_csv);
   (file "notes.txt", Some (js "not a CSV"));
   (file "20240103_small_cap_selected_stocks.csv", Some stocks_csv)].

Definition spec_entries : list (Dirent * option jsstring) :=
  [(file "20240102_selected_stocks.csv", Some stocks_csv)].

Definition other_entries : list (Dirent * option jsstring) :=
  [(file "README.md", Some (js "nothing to see"))].

Definition rotation_entries : list (Dirent * option jsstring) :=
  [(file "20240102_top_industry_stocks.csv", Some industry_csv);
   (file "20240102_bottom_industry_stocks.csv", Some industry_csv);
   (file "20240103_top_industry_stocks.csv", Some industry_csv);
   (file "20240104_bottom_industry_stocks.csv", Some industry_csv);
   (file "20240104_industry_performance_trend.png", None);
   (file "20240105_top_industry_stocks.csv", Some industry_csv);
   (file "20240105_bottom_industry_stocks.csv", Some industry_csv);
   (file "20240105_industry_performance_trend.png", None)].

(** Top and bottom files of different dates. *)
Definition unpaired_entries : list (Dirent * option jsstring) :=
  [(file "20240103_top_industry_stocks.csv", Some industry_csv);
   (file "20240104_bottom_industry_stocks.csv", Some industry_csv)].

(** A pair whose bottom file cannot be read. *)
Definition broken_entries : list (Dirent * option jsstring) :=
  [(file "20240102_top_industry_stocks.csv", Some industry_csv);
   (file "20240102_bottom_industry_stocks.csv", None)].

(** Two files of one date, and a date that is no calendar date. *)
Definition same_date_entries : list (Dirent * option jsstring) :=
  [(file "20240102_b_selected_stocks.csv", Some stocks_csv);
   (file "20241399_x_selected_stocks.csv", Some stocks_csv);
   (file "20240102_a_selected_stocks.csv", Some stocks_csv)].

Definition stock_node : Node := node (js "/data") None stock_entries.
Definition spec_node : Node := node (js "/data") None spec_entries.
Definition other_node : Node := node (js "/data") None other_entries.
Definition rotation_node : Node := node (js "/data") None rotation_entries.
Definition unpaired_node : Node := node (js "/data") None unpaired_entries.
Definition broken_node : Node := node (js "/data") None broken_entries.
Definition same_date_node : Node :=
  node (js "/data") None same_date_entries.

End Sample.

(** * Proofs *)

(** ** Facts about the string operations *)

Lemma split_cons sep c s :
  split sep (c :: s) =
    if c =? sep then [] :: split sep s
    else match split sep s with
         | piece :: pieces => (c :: piece) :: pieces
         | [] => [[c]]
         end.
Proof.
  unfold split. simpl. destruct (split_go sep s) as [piece pieces].
  by destruct (c =? sep).
Qed.

Lemma split_lookup_0 sep s : is_Some (split sep s !! 0%nat).
Proof. unfold split. destruct (split_go sep s). by eexists. Qed.

Lemma split_without sep s :
  Forall (λ c, c ≠ sep) s → split sep s = [s].
Proof.
  induction 1 as [|c s Hc _ IH]; [done|].
  rewrite split_cons, IH. by apply N.eqb_neq in Hc as ->.
Qed.

Lemma split_app_sep sep p r :
  Forall (λ c, c ≠ sep) p → split sep (p ++ sep :: r) = p :: split sep r.
Proof.
  induction 1 as [|c p Hc _ IH]; simpl.
  - by rewrite split_cons, N.eqb_refl.
  - rewrite split_cons, IH. by apply N.eqb_neq in Hc as ->.
Qed.

Lemma trimStart_white s : forallb is_white_space s = true → trimStart s = [].
Proof.
  induction s as [|c s IH]; simpl; [done|].
  intros [-> Hs]%andb_prop. auto.
Qed.

Lemma trim_white s : forallb is_white_space s = true → trim s = [].
Proof. intros Hs. unfold trim, trimEnd. rewrite (trimStart_white s Hs). done. Qed.

Lemma includes_app_r a b needle :
  includes b needle = true → includes (a ++ b) needle = true.
Proof.
  intros Hb. induction a as [|c a IH]; simpl; [done|].
  rewrite IH. apply orb_true_r.
Qed.

Lemma startsWith_app s t : startsWith (s ++ t) s = true.
Proof. induction s as [|c s IH]; simpl; [done|]. by rewrite N.eqb_refl. Qed.

Lemma includes_app_l a b needle :
  includes a needle = true → includes (a ++ b) needle = true.
Proof.
  induction a as [|c a IH]; simpl.
  - destruct needle; [|done]. intros _. destruct b; done.
  - intros [Hs|Hi]%orb_prop.
    + apply orb_true_intro. left. destruct needle as [|x needle]; [done|].
      simpl in *. apply andb_prop in Hs as [-> Hs]. simpl.
      clear IH. revert a Hs. induction needle as [|y needle IHn]; intros a Hs.
      * by destruct a.
      * destruct a as [|z a]; [done|]. simpl in *.
        apply andb_prop in Hs as [-> Hs]. simpl. auto.
    + rewrite (IH Hi). apply orb_true_r.
Qed.

(** ** Facts about the exception monad *)

Lemma promise_all_Returned {A B} (f : A → outcome B) (g : A → B) xs :
  (∀ x, In x xs → f x = Returned (g x)) →
  promise_all f xs = Returned (g <$> xs).
Proof.
  unfold promise_all. induction xs as [|x xs IH]; intros Hf; [done|].
  simpl. rewrite (Hf x) by (by left). simpl.
  rewrite IH by (intros; apply Hf; by right). done.
Qed.

Lemma promise_all_total {A B} (f : A → outcome B) xs :
  (∀ x, In x xs → ∃ y, f x = Returned y) →
  ∃ ys, promise_all f xs = Returned ys ∧ Forall2 (λ x y, f x = Returned y) xs ys.
Proof.
  unfold promise_all. induction xs as [|x xs IH]; intros Hf.
  - exists []. by split.
  - destruct (Hf x) as [y Hy]; [by left|].
    destruct IH as (ys & Hys & Hall); [intros; apply Hf; by right|].
    exists (y :: ys). simpl. rewrite Hy. simpl. rewrite Hys. simpl.
    split; [done|]. by constructor.
Qed.

Lemma promise_all_inv {A B} (f : A → outcome B) xs ys :
  promise_all f xs = Returned ys → Forall2 (λ x y, f x = Returned y) xs ys.
Proof.
  unfold promise_all. revert ys. induction xs as [|x xs IH]; intros ys; simpl.
  - intros [= <-]. constructor.
  - destruct (f x) as [y|e] eqn:Hy; simpl; [|done].
    destruct (mapM f xs) as [ys'|e]; simpl; [|done].
    intros [= <-]. constructor; auto.
Qed.

(** ** Facts about the sort *)

Section sort.
Context {A : Type} (cmp : A → A → comparison).

Lemma insert_sorted_Permutation x l : insert_sorted cmp x l ≡ₚ x :: l.
Proof.
  induction l as [|y l IH]; simpl; [done|].
  destruct (cmp x y); try done. rewrite IH. apply Permutation_swap.
Qed.

Lemma array_sort_Permutation l : array_sort cmp l ≡ₚ l.
Proof.
  induction l as [|x l IH]; simpl; [done|].
  unfold array_sort in *. simpl. by rewrite insert_sorted_Permutation, IH.
Qed.

Lemma array_sort_length l : length (array_sort cmp l) = length l.
Proof. by rewrite array_sort_Permutation. Qed.

(** [x] may stand before [y] when the comparator does not put [y] first. *)
Let before (x y : A) : Prop := cmp y x ≠ Lt.

Hypothesis cmp_lt : ∀ x y, cmp x y ≠ Gt → cmp y x ≠ Lt.
Hypothesis before_trans : ∀ x y z, before x y → before y z → before x z.

Lemma insert_sorted_Sorted x l :
  StronglySorted before l → StronglySorted before (insert_sorted cmp x l).
Proof.
  induction 1 as [|y l Hl IH Hy]; simpl.
  - repeat constructor.
  - destruct (cmp x y) eqn:Hxy.
    + constructor; [by constructor|]. constructor.
      * apply cmp_lt. congruence.
      * eapply Forall_impl; [exact Hy|]. intros z Hz.
        eapply before_trans; [|exact Hz]. apply cmp_lt. congruence.
    + constructor; [by constructor|]. constructor.
      * apply cmp_lt. congruence.
      * eapply Forall_impl; [exact Hy|]. intros z Hz.
        eapply before_trans; [|exact Hz]. apply cmp_lt. congruence.
    + constructor; [done|].
      rewrite insert_sorted_Permutation. constructor; [|done].
      unfold before. intros Hlt. rewrite Hlt in Hxy. done.
Qed.

Lemma array_sort_Sorted l : StronglySorted before (array_sort cmp l).
Proof.
  induction l as [|x l IH]; simpl; [constructor|].
  by apply insert_sorted_Sorted.
Qed.
End sort.

(** ** Facts about the comparison of dates *)

Lemma localeCompare_antisym a b :
  localeCompare b a = CompOpp (localeCompare a b).
Proof.
  revert b. induction a as [|x a IH]; intros [|y b]; simpl; try done.
  rewrite (N.compare_antisym x y). destruct (x ?= y); simpl; auto.
Qed.

Lemma localeCompare_trans a b c :
  localeCompare a b ≠ Lt → localeCompare b c ≠ Lt → localeCompare a c ≠ Lt.
Proof.
  revert b c. induction a as [|x a IH]; intros [|y b] [|z c]; simpl; try done.
  destruct (N.compare_spec x y), (N.compare_spec y z); try done; subst.
  - rewrite N.compare_refl. apply IH.
  - intros _ _. by apply N.compare_gt_iff in H0 as ->.
  - intros _ _. by apply N.compare_gt_iff in H as ->.
  - intros _ _. assert (z < x) as ->%N.compare_gt_iff by lia. done.
Qed.

Lemma StronglySorted_Forall2 {A B} (R : A → A → Prop) (S : B → B → Prop)
    (T : A → B → Prop) xs ys :
  (∀ x1 x2 y1 y2, T x1 y1 → T x2 y2 → R x1 x2 → S y1 y2) →
  Forall2 T xs ys → StronglySorted R xs → StronglySorted S ys.
Proof.
  intros HT Hall. induction Hall as [|x y xs ys Hxy Hall IH]; intros Hs.
  - constructor.
  - apply StronglySorted_inv in Hs as [Hs Hx]. constructor; [auto|].
    clear IH Hs. induction Hall as [|x' y' xs ys Hxy' _ IH]; [constructor|].
    apply Forall_cons in Hx as [Hx Hxs]. constructor; eauto.
Qed.

Lemma Returned_inj {A} (a b : A) : Returned a = Returned b → a = b.
Proof. by intros [=]. Qed.

Lemma slice_date_app (d s : jsstring) :
  length d = 8%nat → slice 0 8 (d ++ s) = d.
Proof. intros Hd. unfold slice. by rewrite drop_0, take_app_length'. Qed.

(** ** The stock picker *)

Section stockpicker.
Context `{Node}.
Import StockPicker.

Lemma parseCSV_returns content :
  parseCSV content
  = Returned (record_of (header_fields content) <$> data_lines content).
Proof.
  unfold parseCSV, header_fields, data_lines.
  by destruct (split_lookup_0 LF (trim content)) as [line0 ->].
Qed.

(** What the pattern says about a name it accepts. *)
Lemma re_selected_stocks_inv name :
  re_selected_stocks name = true →
  ∃ d, name = d ++ ch "_" :: type_part name ++ selected_suffix
       ∧ length d = 8%nat ∧ forallb is_digit d = true
       ∧ type_part name ≠ [] ∧ forallb is_word (type_part name) = true.
Proof.
  unfold re_selected_stocks, type_part.
  set (rest := drop 9 name).
  set (k := (length rest - length selected_suffix)%nat).
  rewrite !andb_true_iff, !bool_decide_eq_true.
  intros (((((Hlen & Hdig) & H8) & Hk) & Hw) & Hsuf).
  exists (take 8 name). repeat split; try done.
  - rewrite <- Hsuf, take_drop. unfold rest.
    rewrite <- (take_drop 8 name) at 1. f_equal.
    rewrite (drop_S name (ch "_") 8 H8). done.
  - intros Hnil. apply (f_equal length) in Hnil. rewrite length_take in Hnil.
    simpl in Hnil. lia.
Qed.

Lemma is_digit_not_underscore c : is_digit c = true → c ≠ ch "_".
Proof. intros Hc ->. done. Qed.

(** The first piece of a split has no separator in it. *)
Lemma split_first sep s :
  ∃ piece pieces, split sep s = piece :: pieces ∧ Forall (λ c, c ≠ sep) piece.
Proof.
  induction s as [|c s (piece & pieces & Hs & Hp)].
  - by exists [], [].
  - rewrite split_cons, Hs. destruct (c =? sep) eqn:Hc.
    + by exists [], (piece :: pieces).
    + exists (c :: piece), pieces. split; [done|].
      constructor; [by apply N.eqb_neq|done].
Qed.

Lemma replace_first_without c d s :
  Forall (λ x, x ≠ c) s → replace_first c d s = s.
Proof.
  induction 1 as [|x s Hx _ IH]; simpl; [done|].
  apply N.eqb_neq in Hx as ->. by rewrite IH.
Qed.

Lemma make_item_matched directory file content :
  re_selected_stocks (name file) = true →
  readFile (path_join directory (name file)) = Returned content →
  let dateStr := take 8 (name file) in
  let records := record_of (header_fields content) <$> data_lines content in
  make_item directory file
  = Returned
      {| Item.title :=
           dateStr ++ js " " ++ capitalize_first (label_of (name file))
             ++ js " 选股结果";
         Item.description :=
           js "### " ++ capitalize_first (label_of (name file))
             ++ js " 选股结果" ++ [LF; LF]
             ++ js "**日期**: " ++ dateStr ++ [LF]
             ++ js "**选股数量**: " ++ show_nat (length records) ++ js "只"
             ++ [LF; LF]
             ++ concat (imap record_lines records);
         Item.pubDate :=
           new_Date (parseInt (slice 0 4 dateStr))
             ((λ m, m - 1)%Z <$> parseInt (slice 4 6 dateStr))
             (parseInt (slice 6 8 dateStr));
         Item.category := [label_of (name file)] |}.
Proof.
  intros Hre Hread. destruct (re_selected_stocks_inv _ Hre)
    as (d & Hname & Hlen & Hdig & _ & _).
  assert (take 8 (name file) = d) as Hd.
  { rewrite Hname, take_app_length'; done. }
  assert (drop 9 (name file) = type_part (name file) ++ selected_suffix) as Hr.
  { rewrite Hname at 1. change 9%nat with (8 + 1)%nat. rewrite <- drop_drop.
    by rewrite drop_app_length'. }
  destruct (split_first (ch "_") (type_part (name file) ++ selected_suffix))
    as (piece & pieces & Hs & Hp).
  assert (label_of (name file) = piece) as Hlabel.
  { unfold label_of. by rewrite Hr, Hs. }
  assert (split_limit (ch "_") 2 (name file) = [d; piece]) as Hparts.
  { unfold split_limit. rewrite Hname, split_app_sep, Hs; [done|].
    apply Forall_forall. intros c Hc. apply is_digit_not_underscore.
    rewrite forallb_forall in Hdig. apply Hdig. by apply list_elem_of_In. }
  unfold make_item. rewrite Hread. cbn [mbind outcome_bind].
  rewrite parseCSV_returns. cbn [mbind outcome_bind].
  rewrite Hparts, Hlabel, Hd. cbn [lookup list_lookup default].
  by rewrite replace_first_without.
Qed.

Lemma is_stock_file_re file :
  is_stock_file file = true → re_selected_stocks (name file) = true.
Proof. unfold is_stock_file. by intros [_ ?]%andb_prop. Qed.

Lemma make_item_date directory file it :
  is_stock_file file = true →
  make_item directory file = Returned it → item_date it = date_of file.
Proof.
  intros Hre%is_stock_file_re Hit.
  destruct (readFile (path_join directory (name file))) as [content|e]
    eqn:Hread; [|by unfold make_item in Hit; rewrite Hread in Hit].
  rewrite (make_item_matched _ _ _ Hre Hread) in Hit.
  apply Returned_inj in Hit as <-. unfold item_date, date_of.
  cbn [Item.title].
  destruct (re_selected_stocks_inv _ Hre) as (d & Hname & Hlen & _).
  assert (take 8 (name file) = d) as -> by (by rewrite Hname, take_app_length').
  assert (slice 0 8 (name file) = d) as ->
    by (by rewrite Hname, slice_date_app).
  by apply slice_date_app.
Qed.

Lemma handler_returns ctx files :
  readdir (req_param_directory ctx) = Returned files →
  (∀ file, In file files → is_stock_file file = true →
     ∃ content,
       readFile (path_join (req_param_directory ctx) (name file))
       = Returned content) →
  ∃ items,
    handler ctx
    = Returned
        {| Feed.title := js "每日选股数据";
           Feed.link := Some (req_param_directory ctx);
           Feed.description := js "每日选股数据RSS源";
           Feed.item := items |}
    ∧ Forall2 (λ file it, make_item (req_param_directory ctx) file = Returned it)
        (array_sort by_date_desc (List.filter is_stock_file files)) items.
Proof.
  intros Hdir Hread. unfold handler. rewrite Hdir. cbn [mbind outcome_bind].
  destruct (promise_all_total (make_item (req_param_directory ctx))
              (array_sort by_date_desc (List.filter is_stock_file files)))
    as (items & -> & Hall).
  - intros file Hin.
    apply list_elem_of_In in Hin. rewrite array_sort_Permutation in Hin.
    apply list_elem_of_In, filter_In in Hin as [Hin Hm].
    destruct (Hread file Hin Hm) as [content Hc].
    rewrite (make_item_matched _ _ _ (is_stock_file_re _ Hm) Hc). by eexists.
  - by exists items.
Qed.

Lemma by_date_desc_sorted (files : list Dirent) :
  StronglySorted (λ a b, localeCompare (date_of a) (date_of b) ≠ Lt)
    (array_sort by_date_desc files).
Proof.
  apply (array_sort_Sorted by_date_desc).
  - unfold by_date_desc. intros x y. fold (date_of x) (date_of y).
    rewrite (localeCompare_antisym (date_of y) (date_of x)).
    by destruct (localeCompare (date_of y) (date_of x)).
  - unfold by_date_desc. intros x y z. apply localeCompare_trans.
Qed.

(** C1. For a readable directory whose matching files can all be read, the
    stock picker returns a feed with exactly one item per file that matches
    the selected-stocks pattern; the items are in descending order of the
    8-digit date prefix (compared as fixed-width strings), and their dates
    are the date prefixes of the matching file names. *)
Theorem stockpicker_items_count_and_order ctx files :
  readdir (req_param_directory ctx) = Returned files →
  (∀ file, In file files → is_stock_file file = true →
     ∃ content,
       readFile (path_join (req_param_directory ctx) (name file))
       = Returned content) →
  ∃ feed,
    handler ctx = Returned feed
    ∧ length (Feed.item feed) = length (List.filter is_stock_file files)
    ∧ dates_descending (Feed.item feed)
    ∧ item_date <$> Feed.item feed
      ≡ₚ date_of <$> List.filter is_stock_file files.
Proof.
  intros Hdir Hread.
  destruct (handler_returns ctx files Hdir Hread) as (items & -> & Hall).
  eexists. split; [done|]. cbn [Feed.item].
  assert (Forall2 (λ file it, is_stock_file file = true
                              ∧ item_date it = date_of file)
            (array_sort by_date_desc (List.filter is_stock_file files)) items)
    as Hdates.
  { assert (Forall (λ file, is_stock_file file = true)
              (array_sort by_date_desc (List.filter is_stock_file files)))
      as Hm.
    { apply Forall_forall. intros file Hin.
      rewrite array_sort_Permutation in Hin.
      by apply list_elem_of_In, filter_In in Hin as [_ ?]. }
    clear -Hall Hm. induction Hall as [|file it fs its Hit _ IH];
      [constructor|].
    apply Forall_cons in Hm as [Hf Hm]. constructor; [|auto].
    split; [done|]. by eapply make_item_date. }
  repeat split.
  - apply Forall2_length in Hdates. by rewrite <- Hdates, array_sort_length.
  - eapply StronglySorted_Forall2;
      [|exact Hdates|apply (by_date_desc_sorted (List.filter is_stock_file files))].
    intros x1 x2 y1 y2 [_ ->] [_ ->]. done.
  - rewrite <- (array_sort_Permutation by_date_desc (List.filter is_stock_file files)).
    assert (item_date <$> items
            = date_of <$> array_sort by_date_desc (List.filter is_stock_file files))
      as ->; [|done].
    clear -Hdates. induction Hdates as [|file it fs its [_ Hd] _ IH]; [done|].
    cbn [fmap list_fmap]. f_equal; done.
Qed.
End stockpicker.

Section stockpicker_items.
Context `{Node}.
Import StockPicker.

Lemma handler_item_of_file ctx files file :
  readdir (req_param_directory ctx) = Returned files →
  (∀ file, In file files → is_stock_file file = true →
     ∃ content,
       readFile (path_join (req_param_directory ctx) (name file))
       = Returned content) →
  In file files → is_stock_file file = true →
  ∃ feed it,
    handler ctx = Returned feed
    ∧ make_item (req_param_directory ctx) file = Returned it
    ∧ In it (Feed.item feed).
Proof.
  intros Hdir Hread Hin Hm.
  destruct (handler_returns ctx files Hdir Hread) as (items & -> & Hall).
  assert (file ∈ array_sort by_date_desc (List.filter is_stock_file files))
    as Hfile.
  { rewrite array_sort_Permutation. apply list_elem_of_In, filter_In. done. }
  apply list_elem_of_lookup in Hfile as [i Hi].
  destruct (Forall2_lookup_l _ _ _ _ _ Hall Hi) as (it & Hit & Hmake).
  eexists _, it. split; [done|]. split; [done|].
  cbn [Feed.item]. eapply list_elem_of_In, list_elem_of_lookup_2, Hit.
Qed.

Lemma label_of_type_part name :
  re_selected_stocks name = true → ch "_" ∉ type_part name →
  label_of name = type_part name.
Proof.
  intros (d & Hname & Hlen & _)%re_selected_stocks_inv Hno.
  unfold label_of.
  assert (drop 9 name = type_part name ++ selected_suffix) as ->.
  { rewrite Hname at 1. change 9%nat with (8 + 1)%nat. rewrite <- drop_drop.
    by rewrite drop_app_length'. }
  change selected_suffix with (ch "_" :: js "selected_stocks.csv").
  rewrite split_app_sep; [done|].
  apply Forall_forall. intros c Hc ->. done.
Qed.

(** C2, as the code has it.  A file that the pattern accepts and whose date
    prefix is 20240102 (such as 20240102_value_selected_stocks.csv), holding
    the header and the data row of the example, yields a feed item whose
    description contains PingAn, 000001.SZ, 0.05 and Banking and whose
    publication date is new Date(2024, 0, 2), the 2nd of January 2024. *)
Theorem stockpicker_example_item ctx files file content :
  readdir (req_param_directory ctx) = Returned files →
  (∀ file, In file files → is_stock_file file = true →
     ∃ content,
       readFile (path_join (req_param_directory ctx) (name file))
       = Returned content) →
  In file files → is_stock_file file = true →
  date_of file = js "20240102" →
  readFile (path_join (req_param_directory ctx) (name file))
  = Returned content →
  trim content
  = js "ts_code,target_weight,name,industry,pe,pe_percentile" ++ [LF]
    ++ js "000001.SZ,0.05,PingAn,Banking,10.2,50" →
  ∃ feed it,
    handler ctx = Returned feed ∧ In it (Feed.item feed)
    ∧ includes (Item.description it) (js "PingAn") = true
    ∧ includes (Item.description it) (js "000001.SZ") = true
    ∧ includes (Item.description it) (js "0.05") = true
    ∧ includes (Item.description it) (js "Banking") = true
    ∧ Item.pubDate it = DateOf 2024 0 2
    ∧ calendar_date (Item.pubDate it) = Some (2024, 1, 2)%Z.
Proof.
  intros Hdir Hread Hin Hm Hdate Hcontent Htrim.
  destruct (handler_item_of_file ctx files file Hdir Hread Hin Hm)
    as (feed & it & Hfeed & Hit & Hitem).
  exists feed, it. split; [done|]. split; [done|].
  rewrite (make_item_matched _ _ _ (is_stock_file_re _ Hm) Hcontent) in Hit.
  apply Returned_inj in Hit as <-. cbn [Item.description Item.pubDate].
  assert (take 8 (name file) = js "20240102") as ->.
  { rewrite <- Hdate. unfold date_of, slice. by rewrite drop_0. }
  unfold header_fields, data_lines. rewrite Htrim.
  repeat split;
    try (do 10 (apply includes_app_r; try (vm_compute; reflexivity)));
    vm_compute; reflexivity.
Qed.

(** C7, as the code has it.  For a matched file whose part between the date
    prefix and [_selected_stocks.csv] has no underscore, the item's category
    is that part as it is written in the name, and its title is the date,
    that part with its first letter in upper case, and the fixed words. *)
Theorem stockpicker_type_label ctx files file :
  readdir (req_param_directory ctx) = Returned files →
  (∀ file, In file files → is_stock_file file = true →
     ∃ content,
       readFile (path_join (req_param_directory ctx) (name file))
       = Returned content) →
  In file files → is_stock_file file = true →
  ch "_" ∉ type_part (name file) →
  ∃ feed it,
    handler ctx = Returned feed ∧ In it (Feed.item feed)
    ∧ Item.category it = [type_part (name file)]
    ∧ Item.title it
      = date_of file ++ js " " ++ capitalize_first (type_part (name file))
          ++ js " 选股结果".
Proof.
  intros Hdir Hread Hin Hm Hno.
  destruct (handler_item_of_file ctx files file Hdir Hread Hin Hm)
    as (feed & it & Hfeed & Hit & Hitem).
  exists feed, it. split; [done|]. split; [done|].
  destruct (Hread file Hin Hm) as [content Hcontent].
  rewrite (make_item_matched _ _ _ (is_stock_file_re _ Hm) Hcontent) in Hit.
  apply Returned_inj in Hit as <-. cbn [Item.category Item.title].
  rewrite (label_of_type_part _ (is_stock_file_re _ Hm) Hno).
  split; [done|]. unfold date_of, slice. by rewrite drop_0.
Qed.

End stockpicker_items.

(** ** The stock picker on the example directories *)

(** Case analysis on membership in a literal list. *)
Ltac each_entry Hin :=
  repeat (destruct Hin as [<-|Hin]); [..|destruct Hin].

Lemma stockpicker_items_count_and_order_witness :
  ∃ feed,
    @StockPicker.handler Sample.stock_node (Sample.ctx "/data") = Returned feed
    ∧ length (Feed.item feed)
      = length (List.filter StockPicker.is_stock_file
                  (fst <$> Sample.stock_entries))
    ∧ dates_descending (Feed.item feed)
    ∧ item_date <$> Feed.item feed
      ≡ₚ date_of <$> List.filter StockPicker.is_stock_file
                       (fst <$> Sample.stock_entries).
Proof.
  apply (@stockpicker_items_count_and_order Sample.stock_node
           (Sample.ctx "/data") (fst <$> Sample.stock_entries)).
  - reflexivity.
  - intros file Hin Hm. each_entry Hin; try discriminate Hm;
      eexists; vm_compute; reflexivity.
Defined.

(** The file name of the example in the specification is not accepted by
    the pattern of the route, which asks for a type between the date and
    [_selected_stocks.csv]: the feed has no item. *)
Lemma stockpicker_example_name_not_matched :
  StockPicker.re_selected_stocks (js "20240102_selected_stocks.csv") = false
  ∧ ∃ feed,
      @StockPicker.handler Sample.spec_node (Sample.ctx "/data")
      = Returned feed
      ∧ Feed.item feed = [].
Proof. split; [|eexists; split]; vm_compute; reflexivity. Qed.

Lemma stockpicker_example_item_witness :
  ∃ feed it,
    @StockPicker.handler Sample.stock_node (Sample.ctx "/data") = Returned feed
    ∧ In it (Feed.item feed)
    ∧ includes (Item.description it) (js "PingAn") = true
    ∧ includes (Item.description it) (js "000001.SZ") = true
    ∧ includes (Item.description it) (js "0.05") = true
    ∧ includes (Item.description it) (js "Banking") = true
    ∧ Item.pubDate it = DateOf 2024 0 2
    ∧ calendar_date (Item.pubDate it) = Some (2024, 1, 2)%Z.
Proof.
  apply (@stockpicker_example_item Sample.stock_node (Sample.ctx "/data")
           (fst <$> Sample.stock_entries)
           (Sample.file "20240102_value_selected_stocks.csv")
           Sample.stocks_csv).
  - reflexivity.
  - intros file Hin Hm. each_entry Hin; try discriminate Hm;
      eexists; vm_compute; reflexivity.
  - left. reflexivity.
  - vm_compute; reflexivity.
  - vm_compute; reflexivity.
  - vm_compute; reflexivity.
  - vm_compute; reflexivity.
Defined.

(** The category is the label as written, not the capitalised one. *)
Lemma stockpicker_category_not_capitalised :
  ∃ feed it,
    @StockPicker.handler Sample.stock_node (Sample.ctx "/data") = Returned feed
    ∧ In it (Feed.item feed)
    ∧ Item.title it = js "20240102 Value 选股结果"
    ∧ type_part (js "20240102_value_selected_stocks.csv") = js "value"
    ∧ Item.category it = [js "value"]
    ∧ Item.category it
      ≠ [capitalize_first (type_part (js "20240102_value_selected_stocks.csv"))].
Proof.
  eexists _, _. split; [vm_compute; reflexivity|].
  split; [right; left; reflexivity|].
  repeat split; try (vm_compute; reflexivity).
  vm_compute. discriminate.
Qed.

(** A type of several words is cut at its first underscore: the label of
    [20240103_small_cap_selected_stocks.csv] is [small]. *)
Example stockpicker_label_first_word :
  type_part (js "20240103_small_cap_selected_stocks.csv") = js "small_cap"
  ∧ label_of (js "20240103_small_cap_selected_stocks.csv") = js "small"
  ∧ ∃ feed it,
      @StockPicker.handler Sample.stock_node (Sample.ctx "/data")
      = Returned feed
      ∧ In it (Feed.item feed)
      ∧ Item.title it = js "20240103 Small 选股结果"
      ∧ Item.category it = [js "small"].
Proof.
  split; [vm_compute; reflexivity|]. split; [vm_compute; reflexivity|].
  eexists _, _. split; [vm_compute; reflexivity|].
  split; [left; reflexivity|]. split; vm_compute; reflexivity.
Qed.

Lemma stockpicker_type_label_witness :
  ∃ feed it,
    @StockPicker.handler Sample.stock_node (Sample.ctx "/data") = Returned feed
    ∧ In it (Feed.item feed)
    ∧ Item.category it
      = [type_part (name (Sample.file "20240102_value_selected_stocks.csv"))]
    ∧ Item.title it
      = date_of (Sample.file "20240102_value_selected_stocks.csv") ++ js " "
          ++ capitalize_first
               (type_part
                  (name (Sample.file "20240102_value_selected_stocks.csv")))
          ++ js " 选股结果".
Proof.
  apply (@stockpicker_type_label Sample.stock_node (Sample.ctx "/data")
           (fst <$> Sample.stock_entries)).
  - reflexivity.
  - intros file Hin Hm. each_entry Hin; try discriminate Hm;
      eexists; vm_compute; reflexivity.
  - left. reflexivity.
  - vm_compute; reflexivity.
  - vm_compute. intros Hin. repeat (apply elem_of_cons in Hin as [Hin|Hin]; [discriminate Hin|]).
    by apply elem_of_nil in Hin.
Defined.

(** ** The CSV parsers *)

Lemma rotation_parseCSV_returns content :
  RotationMonitor.parseCSV content
  = Returned (RotationMonitor.record_of (header_fields content)
                <$> data_lines content).
Proof.
  unfold RotationMonitor.parseCSV, header_fields, data_lines.
  destruct (split_lookup_0 LF (trim content)) as [line0 Hl].
  destruct (split LF (trim content)) as [|l ls]; [done|].
  by injection Hl as ->.
Qed.

Lemma set_property_proto record value :
  set_property record (js "__proto__") value = record.
Proof. unfold set_property. by rewrite bool_decide_eq_true_2. Qed.

Lemma set_property_other record key value :
  key ≠ js "__proto__" → set_property record key value = <[key := value]> record.
Proof. intros Hk. unfold set_property. by rewrite bool_decide_eq_false_2. Qed.

(** C5. Both parsers return for every text, but they miss one case: the
    assignment [record[header] = ...] does nothing for a header named
    [__proto__].  For the header line [code,__proto__] and the data line
    [x], which lacks the second field, the record of either parser has the
    key [code] and no key [__proto__]: the missing field is mapped neither
    to the empty string nor to the placeholder. *)
Theorem parseCSV_proto_column_dropped :
  header_fields Sample.proto_csv = [js "code"; js "__proto__"]
  ∧ data_lines Sample.proto_csv = [js "x"]
  ∧ split (ch ",") (js "x") = [js "x"]
  ∧ (∃ record,
       StockPicker.parseCSV Sample.proto_csv = Returned [record]
       ∧ record !! js "code" = Some (js "x")
       ∧ record !! js "__proto__" = None)
  ∧ (∃ record,
       RotationMonitor.parseCSV Sample.proto_csv = Returned [record]
       ∧ record !! js "code" = Some (js "x")
       ∧ record !! js "__proto__" = None).
Proof.
  split; [vm_compute; reflexivity|]. split; [vm_compute; reflexivity|].
  split; [vm_compute; reflexivity|].
  split; eexists; (split; [vm_compute; reflexivity|]);
    split; vm_compute; reflexivity.
Qed.

(** C9. Both parsers return a list of records for every text, and for a
    text of white space only (the empty text included) the trimmed text
    splits into the single line [""], taken as the header, and the list of
    records is empty. *)
Theorem parseCSV_total content :
  (∃ records, StockPicker.parseCSV content = Returned records)
  ∧ (∃ records, RotationMonitor.parseCSV content = Returned records)
  ∧ (forallb is_white_space content = true →
     split LF (trim content) = [[]]
     ∧ StockPicker.parseCSV content = Returned []
     ∧ RotationMonitor.parseCSV content = Returned []).
Proof.
  split; [eexists; apply parseCSV_returns|].
  split; [eexists; apply rotation_parseCSV_returns|].
  intros Hw. rewrite parseCSV_returns, rotation_parseCSV_returns.
  unfold data_lines. by rewrite (trim_white _ Hw).
Qed.

Lemma parseCSV_total_witness :
  split LF (trim (js "  ")) = [[]]
  ∧ StockPicker.parseCSV (js "  ") = Returned []
  ∧ RotationMonitor.parseCSV (js "  ") = Returned [].
Proof.
  apply (parseCSV_total (js "  ")). vm_compute. reflexivity.
Defined.

(** ** Unreadable and empty directories *)

Section directories.
Context `{Node}.

(** C4. When [readdir] fails, the rotation monitor sets the status of the
    context to 400 and returns a feed with no items whose description holds
    the directory and the error message; the stock picker has no handler for
    the failure and throws the same error. *)
Theorem unreadable_directory ctx message :
  readdir (req_param_directory ctx) = Thrown message →
  (∃ ctx' feed,
     RotationMonitor.handler ctx = Returned (ctx', feed)
     ∧ status ctx' = Some 400
     ∧ Feed.item feed = []
     ∧ Feed.title feed = js "读取失败"
     ∧ Feed.description feed
       = js "无法读取目录: " ++ req_param_directory ctx
           ++ js "，错误信息: " ++ message)
  ∧ StockPicker.handler ctx = Thrown message.
Proof.
  intros Hdir. split.
  - unfold RotationMonitor.handler. rewrite Hdir. by eexists _, _.
  - unfold StockPicker.handler. by rewrite Hdir.
Qed.

Lemma filter_none {A} (p : A → bool) (l : list A) :
  (∀ x, In x l → p x = false) → List.filter p l = [].
Proof.
  induction l as [|x l IH]; intros Hp; [done|]. simpl.
  rewrite (Hp x) by (by left). apply IH. intros; apply Hp; by right.
Qed.

Lemma stockpicker_no_match ctx files :
  readdir (req_param_directory ctx) = Returned files →
  (∀ file, In file files → StockPicker.is_stock_file file = false) →
  StockPicker.handler ctx
  = Returned
      {| Feed.title := js "每日选股数据";
         Feed.link := Some (req_param_directory ctx);
         Feed.description := js "每日选股数据RSS源";
         Feed.item := [] |}.
Proof.
  intros Hdir Hnone. unfold StockPicker.handler.
  rewrite Hdir. cbn [mbind outcome_bind]. by rewrite filter_none.
Qed.

Lemma rotation_no_top ctx files :
  readdir (req_param_directory ctx) = Returned files →
  (∀ file, In file files → RotationMonitor.isTopCSV file = false) →
  RotationMonitor.handler ctx
  = Returned
      (ctx,
       {| Feed.title := js "轮动行情监控";
          Feed.link := Some (req_param_directory ctx);
          Feed.description := js "未找到符合规则的轮动行情CSV文件";
          Feed.item := [] |}).
Proof.
  intros Hdir Hnone. unfold RotationMonitor.handler, RotationMonitor.feed_of_listing.
  rewrite Hdir. by rewrite filter_none.
Qed.

End directories.

Lemma rotation_not_found_explains :
  explains_empty rotation_route (js "未找到符合规则的轮动行情CSV文件").
Proof.
  intros node ctx feed. unfold rotation_route, RotationMonitor.handler.
  destruct (readdir _) as [files|message]; cbn [fmap outcome_fmap snd].
  - unfold RotationMonitor.feed_of_listing.
    destruct (_ || _); cbn [mbind outcome_bind fmap outcome_fmap snd].
    + by intros <-%Returned_inj.
    + destruct (bool_decide _);
        cbn [mbind outcome_bind fmap outcome_fmap snd].
      * by intros <-%Returned_inj.
      * destruct (promise_all _ _);
          cbn [mbind outcome_bind fmap outcome_fmap snd]; [|done].
        intros <-%Returned_inj. cbn [Feed.description]. intros Hd.
        exfalso. revert Hd. vm_compute. discriminate.
  - by intros <-%Returned_inj.
Qed.

Lemma stockpicker_items_exist :
  ∃ feed,
    stockpicker_route Sample.stock_node (Sample.ctx "/data") = Returned feed
    ∧ Feed.description feed = js "每日选股数据RSS源"
    ∧ Feed.item feed ≠ [].
Proof.
  eexists. split; [vm_compute; reflexivity|]. split; [vm_compute; reflexivity|].
  discriminate.
Qed.

(** The description of the stock picker's feed is the same whether or not
    the feed has items. *)
Lemma stockpicker_description_not_explanatory :
  (∃ feed,
     @StockPicker.handler Sample.other_node (Sample.ctx "/data")
     = Returned feed
     ∧ Feed.item feed = []
     ∧ Feed.description feed = js "每日选股数据RSS源")
  ∧ ¬ explains_empty stockpicker_route (js "每日选股数据RSS源").
Proof.
  split.
  - eexists. repeat split; vm_compute; reflexivity.
  - intros Hex.
    destruct stockpicker_items_exist as (feed & Hfeed & Hd & Hitem).
    apply Hitem, (Hex Sample.stock_node (Sample.ctx "/data") feed Hfeed Hd).
Qed.

(** C8, as the code has it.  For a readable directory with no file matching
    the patterns of a route, the route returns a feed with no items and a
    description that is not empty.  The rotation monitor's description is
    the message that no matching CSV file was found, which it never returns
    with items; the stock picker's is its fixed feed description. *)
Theorem no_matching_files `{Node} ctx files :
  readdir (req_param_directory ctx) = Returned files →
  ((∀ file, In file files → StockPicker.is_stock_file file = false) →
   ∃ feed,
     StockPicker.handler ctx = Returned feed
     ∧ Feed.item feed = []
     ∧ Feed.description feed = js "每日选股数据RSS源"
     ∧ Feed.description feed ≠ [])
  ∧ ((∀ file, In file files →
        RotationMonitor.isTopCSV file = false
        ∧ RotationMonitor.isBottomCSV file = false
        ∧ RotationMonitor.isImage file = false) →
     ∃ ctx' feed,
       RotationMonitor.handler ctx = Returned (ctx', feed)
       ∧ Feed.item feed = []
       ∧ Feed.description feed = js "未找到符合规则的轮动行情CSV文件"
       ∧ Feed.description feed ≠ []
       ∧ explains_empty rotation_route (Feed.description feed)).
Proof.
  intros Hdir. split.
  - intros Hnone. eexists. split; [by apply (stockpicker_no_match ctx files)|].
    repeat split. discriminate.
  - intros Hnone. eexists _, _. split.
    + apply (rotation_no_top ctx files); [done|].
      intros file Hin. destruct (Hnone file Hin) as [Htop _]. exact Htop.
    + repeat split; [discriminate|]. apply rotation_not_found_explains.
Qed.

Lemma no_matching_files_witness :
  (∃ feed,
     @StockPicker.handler Sample.other_node (Sample.ctx "/data")
     = Returned feed
     ∧ Feed.item feed = []
     ∧ Feed.description feed = js "每日选股数据RSS源"
     ∧ Feed.description feed ≠ [])
  ∧ (∃ ctx' feed,
       @RotationMonitor.handler Sample.other_node (Sample.ctx "/data")
       = Returned (ctx', feed)
       ∧ Feed.item feed = []
       ∧ Feed.description feed = js "未找到符合规则的轮动行情CSV文件"
       ∧ Feed.description feed ≠ []
       ∧ explains_empty rotation_route (Feed.description feed)).
Proof.
  destruct (@no_matching_files Sample.other_node (Sample.ctx "/data")
              (fst <$> Sample.other_entries) eq_refl) as [Hs Hr].
  split.
  - apply Hs. intros file Hin. each_entry Hin. reflexivity.
  - apply Hr. intros file Hin. each_entry Hin. repeat split.
Defined.

Lemma unreadable_directory_witness :
  (∃ ctx' feed,
     @RotationMonitor.handler Sample.other_node (Sample.ctx "/missing")
     = Returned (ctx', feed)
     ∧ status ctx' = Some 400
     ∧ Feed.item feed = []
     ∧ Feed.title feed = js "读取失败"
     ∧ Feed.description feed
       = js "无法读取目录: " ++ js "/missing" ++ js "，错误信息: "
           ++ js "ENOENT: no such file or directory, scandir")
  ∧ @StockPicker.handler Sample.other_node (Sample.ctx "/missing")
    = Thrown (js "ENOENT: no such file or directory, scandir").
Proof.
  apply (@unreadable_directory Sample.other_node (Sample.ctx "/missing")).
  reflexivity.
Defined.

(** ** Facts about the Map *)

Section jsmap.
Context {V : Type}.
Implicit Types (m : list (jsstring * V)) (k : jsstring) (v : V).

Lemma map_get_set k k' v m :
  map_get k (map_set k' v m)
  = if bool_decide (k' = k) then Some v else map_get k m.
Proof.
  induction m as [|[k0 v0] m IH]; simpl.
  - done.
  - destruct (decide (k0 = k')) as [->|Hne].
    + rewrite bool_decide_eq_true_2 by done. simpl. by case_bool_decide.
    + rewrite bool_decide_eq_false_2 by done. simpl. rewrite IH.
      repeat case_bool_decide; congruence.
Qed.

Lemma map_get_elem k m : is_Some (map_get k m) ↔ k ∈ m.*1.
Proof.
  induction m as [|[k0 v0] m IH]; simpl.
  - split; [by intros [? ?]|by intros ?%elem_of_nil].
  - rewrite elem_of_cons, <- IH. case_bool_decide; subst.
    + split; [by left|by eexists].
    + split; [by right|by intros [->|?]].
Qed.

Lemma map_get_In k v m : map_get k m = Some v → In (k, v) m.
Proof.
  induction m as [|[k0 v0] m IH]; simpl; [done|].
  case_bool_decide; subst; [intros [= ->]; by left|right; auto].
Qed.

Lemma map_In_get k v m : NoDup m.*1 → In (k, v) m → map_get k m = Some v.
Proof.
  induction m as [|[k0 v0] m IH]; simpl; [done|].
  intros [Hk0 Hm]%NoDup_cons [[= -> ->]|Hin].
  - by rewrite bool_decide_eq_true_2.
  - rewrite bool_decide_eq_false_2; [auto|]. intros ->. apply Hk0.
    apply list_elem_of_In in Hin. by apply (list_elem_of_fmap_2 fst) in Hin.
Qed.

Lemma map_set_keys k v m :
  (map_set k v m).*1 = if bool_decide (k ∈ m.*1) then m.*1 else m.*1 ++ [k].
Proof.
  induction m as [|[k0 v0] m IH]; [done|].
  cbn [map_set]. destruct (decide (k0 = k)) as [->|Hne].
  - rewrite bool_decide_eq_true_2 by done.
    rewrite bool_decide_eq_true_2; [done|]. rewrite fmap_cons. by left.
  - rewrite bool_decide_eq_false_2 by done. rewrite !fmap_cons, IH.
    cbn [fst]. destruct (decide (k ∈ m.*1)) as [Hin|Hin].
    + rewrite !bool_decide_eq_true_2; [done|by right|done].
    + rewrite !bool_decide_eq_false_2; [done| |done].
      intros [?|?]%elem_of_cons; congruence.
Qed.

Lemma map_set_NoDup k v m : NoDup m.*1 → NoDup (map_set k v m).*1.
Proof.
  intros Hm. rewrite map_set_keys. case_bool_decide; [done|].
  apply NoDup_app. split; [done|]. split; [|apply NoDup_singleton].
  intros x Hx ->%list_elem_of_singleton. done.
Qed.
End jsmap.

(** ** The rotation monitor: grouping by date *)

Lemma foldl_invariant {A B} (P : A → Prop) (f : A → B → A) l a :
  P a → (∀ a b, P a → P (f a b)) → P (foldl f a l).
Proof. intros Ha Hf. revert a Ha. induction l; simpl; auto. Qed.

Lemma has_date_app d l1 l2 :
  has_date d (l1 ++ l2) = has_date d l1 || has_date d l2.
Proof. apply existsb_app. Qed.

Lemma has_date_true d files :
  has_date d files = true ↔ ∃ file, In file files ∧ date_of file = d.
Proof.
  unfold has_date. rewrite existsb_exists.
  split; intros (file & Hin & Hd); exists file; split; try done.
  - by apply bool_decide_eq_true in Hd.
  - by apply bool_decide_eq_true.
Qed.

Lemma has_date_filter d (p : Dirent → bool) files :
  has_date d (List.filter p files) = true
  ↔ ∃ file, In file files ∧ p file = true ∧ date_of file = d.
Proof.
  rewrite has_date_true. split.
  - intros (file & [Hin Hp]%filter_In & Hd). by exists file.
  - intros (file & Hin & Hp & Hd). exists file. by rewrite filter_In.
Qed.

Section grouping.
Context `{Node}.
Import RotationMonitor.

Lemma re_dated_inv suffix n :
  re_dated suffix n = true →
  n = slice 0 8 n ++ suffix ∧ length (slice 0 8 n) = 8%nat
  ∧ forallb is_digit (slice 0 8 n) = true.
Proof.
  unfold re_dated, slice. rewrite drop_0, Nat.sub_0_r.
  rewrite !andb_true_iff, !bool_decide_eq_true.
  intros ((Hlen & Hdig) & Hsuf). by rewrite <- Hsuf, take_drop.
Qed.

Lemma isTopCSV_name file :
  isTopCSV file = true → name file = date_of file ++ top_suffix.
Proof.
  unfold isTopCSV. intros [_ Hre]%andb_prop. by apply re_dated_inv in Hre as [? _].
Qed.

Lemma isBottomCSV_name file :
  isBottomCSV file = true → name file = date_of file ++ bottom_suffix.
Proof.
  unfold isBottomCSV. intros [_ Hre]%andb_prop.
  by apply re_dated_inv in Hre as [? _].
Qed.

Lemma isImage_name file :
  isImage file = true → name file = date_of file ++ image_suffix.
Proof.
  unfold isImage. intros [_ Hre]%andb_prop. by apply re_dated_inv in Hre as [? _].
Qed.

(** The first loop. *)
Lemma get_top_loop directory topFiles d :
  Forall (λ file, isTopCSV file = true) topFiles →
  map_get d (foldl (add_top directory) [] topFiles)
  = if has_date d topFiles
    then Some {| top := path_join directory (d ++ top_suffix);
                 bottom := []; image := None |}
    else None.
Proof.
  induction topFiles as [|file topFiles IH] using rev_ind; [done|].
  intros [Htops Hfile]%Forall_app. rewrite Forall_singleton in Hfile.
  rewrite foldl_app, has_date_app. cbn [foldl]. unfold add_top at 1.
  rewrite map_get_set. fold (date_of file).
  unfold has_date at 2. cbn [existsb]. rewrite orb_false_r.
  case_bool_decide as Hd.
  - rewrite orb_true_r. subst d. rewrite (IH Htops).
    rewrite <- (isTopCSV_name _ Hfile). by destruct (has_date _ _).
  - rewrite orb_false_r. by apply IH.
Qed.

(** The second and third loop update the entries that exist. *)
Lemma get_update_loop (step : list (jsstring * Group) → Dirent → list (jsstring * Group))
    (upd : Dirent → Group → Group) :
  (∀ m file,
     step m file
     = match map_get (date_of file) m with
       | Some old => map_set (date_of file) (upd file old) m
       | None => m
       end) →
  ∀ files m d,
    map_get d (foldl step m files)
    = (λ g, foldl (λ g file,
                     if bool_decide (date_of file = d) then upd file g else g)
              g files) <$> map_get d m.
Proof.
  intros Hstep files. induction files as [|file files IH]; intros m d.
  - cbn [foldl]. by destruct (map_get d m).
  - cbn [foldl]. rewrite IH, Hstep.
    destruct (map_get (date_of file) m) as [old|] eqn:Hold.
    + rewrite map_get_set. case_bool_decide as Hd.
      * subst d. by rewrite Hold.
      * by destruct (map_get d m).
    + case_bool_decide as Hd.
      * subst d. by rewrite Hold.
      * by destruct (map_get d m).
Qed.

Lemma fold_bottom directory d bottomFiles g :
  Forall (λ file, isBottomCSV file = true) bottomFiles →
  foldl (λ g file,
           if bool_decide (date_of file = d)
           then {| top := top g; bottom := path_join directory (name file);
                   image := image g |}
           else g) g bottomFiles
  = if has_date d bottomFiles
    then {| top := top g;
            bottom := path_join directory (d ++ bottom_suffix);
            image := image g |}
    else g.
Proof.
  intros Hall. revert g.
  induction Hall as [|file bottomFiles Hfile _ IH]; intros g; [done|].
  cbn [foldl has_date existsb]. fold (has_date d bottomFiles). rewrite IH.
  case_bool_decide as Hd; [|done]. subst d.
  rewrite <- (isBottomCSV_name _ Hfile). by destruct (has_date _ _).
Qed.

Lemma fold_image directory d imageFiles g :
  Forall (λ file, isImage file = true) imageFiles →
  foldl (λ g file,
           if bool_decide (date_of file = d)
           then {| top := top g; bottom := bottom g;
                   image := Some (path_join directory (name file)) |}
           else g) g imageFiles
  = if has_date d imageFiles
    then {| top := top g; bottom := bottom g;
            image := Some (path_join directory (d ++ image_suffix)) |}
    else g.
Proof.
  intros Hall. revert g.
  induction Hall as [|file imageFiles Hfile _ IH]; intros g; [done|].
  cbn [foldl has_date existsb]. fold (has_date d imageFiles). rewrite IH.
  case_bool_decide as Hd; [|done]. subst d.
  rewrite <- (isImage_name _ Hfile). by destruct (has_date _ _).
Qed.

(** The contents of [filesByDate]. *)
Lemma group_by_date_get directory topFiles bottomFiles imageFiles d :
  Forall (λ file, isTopCSV file = true) topFiles →
  Forall (λ file, isBottomCSV file = true) bottomFiles →
  Forall (λ file, isImage file = true) imageFiles →
  map_get d (group_by_date directory topFiles bottomFiles imageFiles)
  = group_of directory topFiles bottomFiles imageFiles d.
Proof.
  intros Htop Hbottom Himage. unfold group_by_date, group_of.
  rewrite (get_update_loop (add_image directory)
             (λ file g, {| top := top g; bottom := bottom g;
                           image := Some (path_join directory (name file)) |}))
    by done.
  rewrite (get_update_loop (add_bottom directory)
             (λ file g, {| top := top g;
                           bottom := path_join directory (name file);
                           image := image g |})) by done.
  rewrite get_top_loop by done.
  destruct (has_date d topFiles); [|done]. cbn [fmap option_fmap option_map].
  rewrite fold_bottom, fold_image by done.
  by destruct (has_date d bottomFiles), (has_date d imageFiles).
Qed.

Lemma group_by_date_NoDup directory topFiles bottomFiles imageFiles :
  NoDup (group_by_date directory topFiles bottomFiles imageFiles).*1.
Proof.
  unfold group_by_date.
  apply foldl_invariant; [apply foldl_invariant; [apply foldl_invariant|]|].
  - apply NoDup_nil_2.
  - intros m file Hm. by apply map_set_NoDup.
  - intros m file Hm. unfold add_bottom.
    destruct (map_get _ m); [by apply map_set_NoDup|done].
  - intros m file Hm. unfold add_image.
    destruct (map_get _ m); [by apply map_set_NoDup|done].
Qed.

Lemma filter_Forall {A} (p : A → bool) (l : list A) :
  Forall (λ x, p x = true) (List.filter p l).
Proof. apply Forall_forall. by intros x [_ ?]%list_elem_of_In%filter_In. Qed.

(** The entries the handler makes items of. *)
Lemma validRotationData_In `{!NodeLaws} directory files d g :
  In (d, g) (validRotationData directory files)
  ↔ group_of directory (List.filter isTopCSV files)
      (List.filter isBottomCSV files) (List.filter isImage files) d = Some g
    ∧ has_date d (List.filter isBottomCSV files) = true.
Proof.
  unfold validRotationData.
  rewrite <- list_elem_of_In, array_sort_Permutation, list_elem_of_In, filter_In.
  rewrite <- (group_by_date_get directory) by apply filter_Forall.
  split.
  - intros [Hin Hc]. apply map_In_get in Hin; [|apply group_by_date_NoDup].
    split; [done|]. rewrite group_by_date_get in Hin by apply filter_Forall.
    unfold group_of in Hin. destruct (has_date d (List.filter isTopCSV files)); [|done].
    injection Hin as <-. unfold complete in Hc. cbn [snd top bottom] in Hc.
    destruct (has_date d (List.filter isBottomCSV files)); [done|].
    by rewrite andb_false_r in Hc.
  - intros [Hg Hb]. split; [by apply map_get_In|].
    rewrite group_by_date_get in Hg by apply filter_Forall.
    unfold group_of in Hg. destruct (has_date d (List.filter isTopCSV files)); [|done].
    injection Hg as <-. rewrite Hb. unfold complete. cbn [snd top bottom].
    pose proof (path_join_nonempty directory (d ++ top_suffix)) as Ht.
    pose proof (path_join_nonempty directory (d ++ bottom_suffix)) as Hb'.
    destruct (path_join directory (d ++ top_suffix)); [congruence|].
    destruct (path_join directory (d ++ bottom_suffix)); [congruence|].
    reflexivity.
Qed.
End grouping.

(** ** The rotation monitor: items *)

Section rotation_items.
Context `{Node}.
Import RotationMonitor.

Lemma make_item_title entry it :
  make_item entry = Returned it →
  Item.title it = entry.1 ++ js " 轮动行情监控"
  ∧ ∃ topRecords bottomRecords,
      Item.description it
      = md_render (markdown_of entry.1 entry.2 topRecords bottomRecords).
Proof.
  destruct entry as [d g]. unfold make_item.
  destruct (readFile (top g)) as [topContent|]; [|done].
  cbn [mbind outcome_bind]. rewrite rotation_parseCSV_returns.
  cbn [mbind outcome_bind].
  destruct (readFile (bottom g)) as [bottomContent|]; [|done].
  cbn [mbind outcome_bind]. rewrite rotation_parseCSV_returns.
  cbn [mbind outcome_bind]. intros <-%Returned_inj. split; [done|].
  by eexists _, _.
Qed.

Lemma make_item_returns d g topContent bottomContent :
  readFile (top g) = Returned topContent →
  readFile (bottom g) = Returned bottomContent →
  ∃ it, make_item (d, g) = Returned it.
Proof.
  intros Ht Hb. unfold make_item. rewrite Ht. cbn [mbind outcome_bind].
  rewrite rotation_parseCSV_returns. cbn [mbind outcome_bind].
  rewrite Hb. cbn [mbind outcome_bind]. rewrite rotation_parseCSV_returns.
  by eexists.
Qed.

Lemma Forall2_In_r {A B} (R : A → B → Prop) xs ys y :
  Forall2 R xs ys → In y ys → ∃ x, In x xs ∧ R x y.
Proof.
  induction 1 as [|x0 y0 xs ys HR _ IH]; [done|]. intros [->|Hin].
  - exists x0. split; [by left|done].
  - destruct (IH Hin) as (x & ? & ?). exists x. split; [by right|done].
Qed.

Lemma Forall2_In_l {A B} (R : A → B → Prop) xs ys x :
  Forall2 R xs ys → In x xs → ∃ y, In y ys ∧ R x y.
Proof.
  induction 1 as [|x0 y0 xs ys HR _ IH]; [done|]. intros [->|Hin].
  - exists y0. split; [by left|done].
  - destruct (IH Hin) as (y & ? & ?). exists y. split; [by right|done].
Qed.

(** Whatever the handler returns, its items come from the valid entries. *)
Lemma handler_items_from_valid ctx files ctx' feed it :
  readdir (req_param_directory ctx) = Returned files →
  handler ctx = Returned (ctx', feed) → In it (Feed.item feed) →
  ∃ entry,
    In entry (validRotationData (req_param_directory ctx) files)
    ∧ make_item entry = Returned it.
Proof.
  intros Hdir. unfold handler, feed_of_listing. rewrite Hdir.
  destruct (_ || _); cbn [mbind outcome_bind].
  { by intros [= <- <-]. }
  case_bool_decide; cbn [mbind outcome_bind].
  { by intros [= <- <-]. }
  destruct (promise_all _ _) as [items|] eqn:Hitems;
    cbn [mbind outcome_bind]; [|done].
  intros [= <- <-]. cbn [Feed.item]. intros Hin.
  apply promise_all_inv in Hitems.
  destruct (Forall2_In_r _ _ _ _ Hitems Hin) as (entry & ? & ?). eauto.
Qed.

Context `{!NodeLaws}.

(** With readable CSV files the handler returns, and its items are the
    items of the valid entries. *)
Lemma handler_returns_items ctx files :
  readdir (req_param_directory ctx) = Returned files →
  (∀ file, In file files → isTopCSV file = true ∨ isBottomCSV file = true →
     ∃ content,
       readFile (path_join (req_param_directory ctx) (name file))
       = Returned content) →
  ∃ feed,
    handler ctx = Returned (ctx, feed)
    ∧ ∀ entry,
        In entry (validRotationData (req_param_directory ctx) files) →
        ∃ it, In it (Feed.item feed) ∧ make_item entry = Returned it.
Proof.
  intros Hdir Hread.
  assert (∀ entry, In entry (validRotationData (req_param_directory ctx) files) →
            ∃ it, make_item entry = Returned it) as Hmake.
  { intros [d g] [Hg Hb]%validRotationData_In. unfold group_of in Hg.
    destruct (has_date d (List.filter isTopCSV files)) eqn:Ht; [|done].
    rewrite Hb in Hg. apply (inj Some) in Hg as <-.
    apply has_date_filter in Ht as (ft & Hft & Htop & <-).
    apply has_date_filter in Hb as (fb & Hfb & Hbot & Hd).
    destruct (Hread ft Hft) as [tc Htc]; [by left|].
    destruct (Hread fb Hfb) as [bc Hbc]; [by right|].
    eapply make_item_returns; cbn [top bottom].
    - rewrite <- (isTopCSV_name _ Htop). exact Htc.
    - rewrite <- Hd, <- (isBottomCSV_name _ Hbot). exact Hbc. }
  unfold handler, feed_of_listing. rewrite Hdir.
  destruct (_ || _) eqn:Hempty; cbn [mbind outcome_bind].
  { eexists. split; [done|]. intros [d g] [Hg Hb]%validRotationData_In.
    exfalso. unfold group_of in Hg.
    destruct (has_date d (List.filter isTopCSV files)) eqn:Ht; [|done].
    apply orb_prop in Hempty as [He|He]; apply bool_decide_eq_true in He;
      apply length_zero_iff_nil in He; rewrite He in *; done. }
  destruct (decide (length (validRotationData (req_param_directory ctx) files)
                    = 0%nat)) as [Hvalid|Hvalid].
  { rewrite bool_decide_eq_true_2 by done. cbn [mbind outcome_bind].
    eexists. split; [done|]. intros entry Hin. exfalso.
    by destruct (validRotationData (req_param_directory ctx) files). }
  rewrite bool_decide_eq_false_2 by done.
  destruct (promise_all_total make_item (validRotationData (req_param_directory ctx) files) Hmake)
    as (items & -> & Hall).
  cbn [mbind outcome_bind]. eexists. split; [done|]. cbn [Feed.item].
  intros entry Hin. by apply (Forall2_In_l _ _ _ _ Hall).
Qed.

(** C3. With a readable directory and readable CSV files, the rotation
    monitor returns a feed that has an item for a date (an item whose title
    starts with that date) if and only if the directory has both a
    top-category CSV and a bottom-category CSV of that date. *)
Theorem rotation_item_iff_both ctx files :
  readdir (req_param_directory ctx) = Returned files →
  (∀ file, In file files → isTopCSV file = true ∨ isBottomCSV file = true →
     ∃ content,
       readFile (path_join (req_param_directory ctx) (name file))
       = Returned content) →
  ∃ ctx' feed,
    handler ctx = Returned (ctx', feed)
    ∧ ∀ d,
        (∃ it, In it (Feed.item feed)
               ∧ Item.title it = d ++ js " 轮动行情监控")
        ↔ (∃ file, In file files ∧ isTopCSV file = true ∧ date_of file = d)
          ∧ (∃ file, In file files ∧ isBottomCSV file = true
                     ∧ date_of file = d).
Proof.
  intros Hdir Hread.
  destruct (handler_returns_items ctx files Hdir Hread) as (feed & Hfeed & Hitems).
  exists ctx, feed. split; [done|]. intros d.
  rewrite <- !has_date_filter. split.
  - intros (it & Hin & Htitle).
    destruct (handler_items_from_valid ctx files ctx feed it Hdir Hfeed Hin)
      as ([d' g] & Hvalid & Hmake).
    apply make_item_title in Hmake as [Ht _]. cbn [fst] in Ht.
    rewrite Htitle in Ht. apply app_inv_tail in Ht as ->.
    apply validRotationData_In in Hvalid as [Hg Hb]. split; [|done].
    unfold group_of in Hg.
    by destruct (has_date d' (List.filter isTopCSV files)).
  - intros [Ht Hb].
    destruct (Hitems (d, {| top := path_join (req_param_directory ctx) (d ++ top_suffix);
                            bottom := path_join (req_param_directory ctx) (d ++ bottom_suffix);
                            image := if has_date d (List.filter isImage files)
                                     then Some (path_join (req_param_directory ctx) (d ++ image_suffix))
                                     else None |}))
      as (it & Hin & Hmake).
    { apply validRotationData_In. split; [|done]. unfold group_of.
      by rewrite Ht, Hb. }
    exists it. split; [done|]. by apply make_item_title in Hmake as [? _].
Qed.

End rotation_items.

(** ** The rotation monitor: the chart *)

Lemma suffix_app_end {A} (l : list A) : l `suffix_of` l.
Proof. by exists []. Qed.

Section rotation_chart.
Context `{Node} `{!NodeLaws}.
Import RotationMonitor.

Lemma image_entry_name file : isImage file = true → entry_name (name file).
Proof.
  unfold isImage. intros [_ (Hname & Hlen & Hdig)%re_dated_inv]%andb_prop.
  assert (length (name file) = 39%nat) as Hl.
  { rewrite Hname, length_app, Hlen. done. }
  repeat split.
  - intros Hn. by rewrite Hn in Hl.
  - rewrite Hname. intros [Hin|Hin]%elem_of_app.
    + rewrite forallb_forall in Hdig.
      apply list_elem_of_In, Hdig in Hin. done.
    + revert Hin. vm_compute. intros Hin.
      repeat (apply elem_of_cons in Hin as [Hin|Hin]; [discriminate Hin|]).
      by apply elem_of_nil in Hin.
  - intros Hn. by rewrite Hn in Hl.
  - intros Hn. by rewrite Hn in Hl.
Qed.

Lemma chart_section_image directory file :
  isImage file = true →
  chart_section (Some (path_join directory (name file)))
  = js "![行业表现趋势]("
      ++ (or_else env_ROTATION_IMAGE_BASE_URL default_image_base
            ++ js "/" ++ name file)
      ++ js ")" ++ [LF; LF].
Proof.
  intros Him. unfold chart_section.
  pose proof (path_join_nonempty directory (name file)) as Hne.
  destruct (path_join directory (name file)) as [|c p] eqn:Hp; [done|].
  by rewrite <- Hp, path_basename_join by by apply image_entry_name.
Qed.

(** C6. With a readable directory and readable CSV files, every date that
    has both CSV files has an item whose body is the rendering of a Markdown
    document that ends with the chart section: the image reference with the
    URL made of the configured base URL (or the default one), a slash and
    the name of the image file when the directory has the image of that
    date, and the notice that no chart is available when it has none. *)
Theorem rotation_chart_or_notice ctx files :
  readdir (req_param_directory ctx) = Returned files →
  (∀ file, In file files → isTopCSV file = true ∨ isBottomCSV file = true →
     ∃ content,
       readFile (path_join (req_param_directory ctx) (name file))
       = Returned content) →
  ∃ ctx' feed,
    handler ctx = Returned (ctx', feed)
    ∧ ∀ d,
        (∃ file, In file files ∧ isTopCSV file = true ∧ date_of file = d) →
        (∃ file, In file files ∧ isBottomCSV file = true ∧ date_of file = d) →
        ∃ it mdContent,
          In it (Feed.item feed)
          ∧ Item.title it = d ++ js " 轮动行情监控"
          ∧ Item.description it = md_render mdContent
          ∧ (∀ file, In file files → isImage file = true → date_of file = d →
               (js "## 📉 行业表现趋势" ++ [LF; LF]
                  ++ js "![行业表现趋势]("
                  ++ (or_else env_ROTATION_IMAGE_BASE_URL
                        (js "http://localhost:1200/rotation-images")
                        ++ js "/" ++ name file)
                  ++ js ")" ++ [LF; LF])
               `suffix_of` mdContent)
          ∧ ((¬ ∃ file, In file files ∧ isImage file = true
                        ∧ date_of file = d) →
               (js "## 📉 行业表现趋势" ++ [LF; LF]
                  ++ js "> 暂无行业表现趋势图表" ++ [LF; LF])
               `suffix_of` mdContent).
Proof.
  intros Hdir Hread.
  destruct (handler_returns_items ctx files Hdir Hread)
    as (feed & Hfeed & Hitems).
  exists ctx, feed. split; [done|]. intros d Ht Hb.
  apply has_date_filter in Ht. apply has_date_filter in Hb.
  set (g := {| top := path_join (req_param_directory ctx) (d ++ top_suffix);
               bottom := path_join (req_param_directory ctx) (d ++ bottom_suffix);
               image := if has_date d (List.filter isImage files)
                        then Some (path_join (req_param_directory ctx)
                                     (d ++ image_suffix))
                        else None |}).
  destruct (Hitems (d, g)) as (it & Hin & Hmake).
  { apply validRotationData_In. split; [|done]. unfold group_of.
    by rewrite Ht, Hb. }
  apply make_item_title in Hmake as (Htitle & tr & br & Hdesc).
  cbn [fst snd] in Htitle, Hdesc.
  exists it, (markdown_of d g tr br). repeat split; try done.
  - intros file Hfile Him Hd.
    assert (has_date d (List.filter isImage files) = true) as Hi.
    { apply has_date_filter. by exists file. }
    unfold markdown_of. cbn [image g]. rewrite Hi.
    rewrite <- Hd, <- (isImage_name _ Him), (chart_section_image _ _ Him).
    unfold default_image_base. do 19 apply suffix_app_r. apply suffix_app_end.
  - intros Hnone.
    assert (has_date d (List.filter isImage files) = false) as Hi.
    { apply not_true_is_false. by intros ?%has_date_filter. }
    unfold markdown_of. cbn [image g]. rewrite Hi. cbn [chart_section].
    do 19 apply suffix_app_r. apply suffix_app_end.
Qed.
End rotation_chart.

(** ** The rotation monitor: dates without a top-category file *)

Section rotation_orphans.
Context `{Node}.
Import RotationMonitor.

Lemma add_bottom_step directory m file :
  add_bottom directory m file
  = match map_get (date_of file) m with
    | Some old =>
        map_set (date_of file)
          {| top := top old; bottom := path_join directory (name file);
             image := image old |} m
    | None => m
    end.
Proof. reflexivity. Qed.

Lemma add_image_step directory m file :
  add_image directory m file
  = match map_get (date_of file) m with
    | Some old =>
        map_set (date_of file)
          {| top := top old; bottom := bottom old;
             image := Some (path_join directory (name file)) |} m
    | None => m
    end.
Proof. reflexivity. Qed.

(** A loop that only updates existing entries skips the files whose date
    is not a key. *)
Lemma update_loop_filter
    (step : list (jsstring * Group) → Dirent → list (jsstring * Group))
    (upd : Dirent → Group → Group) (keep : Dirent → bool) :
  (∀ m file,
     step m file
     = match map_get (date_of file) m with
       | Some old => map_set (date_of file) (upd file old) m
       | None => m
       end) →
  ∀ files m,
    (∀ file, keep file = false → map_get (date_of file) m = None) →
    foldl step m files = foldl step m (List.filter keep files).
Proof.
  intros Hstep files. induction files as [|file files IH]; intros m Hm; [done|].
  cbn [foldl List.filter]. destruct (keep file) eqn:Hk.
  - cbn [foldl]. apply IH. intros file' Hk'.
    pose proof (get_update_loop step upd Hstep [file] m (date_of file')) as Hg.
    cbn [foldl] in Hg. rewrite Hg, (Hm file' Hk'). done.
  - rewrite (Hstep m file), (Hm file Hk). by apply IH.
Qed.

Lemma top_loop_keys directory topFiles d :
  has_date d topFiles = false →
  map_get d (foldl (add_top directory) [] topFiles) = None.
Proof.
  induction topFiles as [|file topFiles IH] using rev_ind; [done|].
  rewrite has_date_app, foldl_app. intros [Ht Hf]%orb_false_elim.
  cbn [foldl]. unfold add_top. rewrite map_get_set. fold (date_of file).
  unfold has_date in Hf. cbn [existsb] in Hf. rewrite orb_false_r in Hf.
  rewrite Hf. by apply IH.
Qed.

Lemma top_loop_keys_inv directory topFiles d :
  is_Some (map_get d (foldl (add_top directory) [] topFiles)) →
  has_date d topFiles = true.
Proof.
  intros Hs. destruct (has_date d topFiles) eqn:Hd; [done|].
  rewrite (top_loop_keys _ _ _ Hd) in Hs. by destruct Hs.
Qed.

(** The keys of [filesByDate] are dates of top-category files, whatever the
    other two lists hold. *)
Lemma group_by_date_keys directory topFiles bottomFiles imageFiles d :
  d ∈ (group_by_date directory topFiles bottomFiles imageFiles).*1 →
  has_date d topFiles = true.
Proof.
  rewrite <- map_get_elem. unfold group_by_date.
  rewrite (get_update_loop _ _ (add_image_step directory)).
  rewrite (get_update_loop _ _ (add_bottom_step directory)).
  rewrite !fmap_is_Some. apply top_loop_keys_inv.
Qed.

Lemma group_by_date_ignores directory topFiles bottomFiles imageFiles :
  group_by_date directory topFiles bottomFiles imageFiles
  = group_by_date directory topFiles
      (List.filter (λ file, has_date (date_of file) topFiles) bottomFiles)
      (List.filter (λ file, has_date (date_of file) topFiles) imageFiles).
Proof.
  unfold group_by_date.
  rewrite <- (update_loop_filter _ _ (λ file, has_date (date_of file) topFiles)
                (add_bottom_step directory) bottomFiles).
  - apply (update_loop_filter _ _ _ (add_image_step directory)).
    intros file Hk.
    rewrite (get_update_loop _ _ (add_bottom_step directory)).
    by rewrite top_loop_keys.
  - intros file Hk. by apply top_loop_keys.
Qed.

Lemma In_take {A} (x : A) n l : In x (take n l) → In x l.
Proof.
  rewrite <- !list_elem_of_In. apply subseteq_take.
Qed.

(** C10. The keys of [filesByDate] are dates of top-category CSV files at
    every point of the three loops; the bottom-category CSV files and the
    images whose date has no top-category file leave the map as it is; and
    every item the handler returns bears the date of a top-category file,
    so a date with a bottom-category file only has no item. *)
Theorem rotation_groups_need_top ctx files :
  readdir (req_param_directory ctx) = Returned files →
  (∀ n1 n2 n3 d,
     d ∈ (group_by_date (req_param_directory ctx)
            (take n1 (List.filter isTopCSV files))
            (take n2 (List.filter isBottomCSV files))
            (take n3 (List.filter isImage files))).*1 →
     ∃ file, In file files ∧ isTopCSV file = true ∧ date_of file = d)
  ∧ group_by_date (req_param_directory ctx) (List.filter isTopCSV files)
      (List.filter isBottomCSV files) (List.filter isImage files)
    = group_by_date (req_param_directory ctx) (List.filter isTopCSV files)
        (List.filter
           (λ file, has_date (date_of file) (List.filter isTopCSV files))
           (List.filter isBottomCSV files))
        (List.filter
           (λ file, has_date (date_of file) (List.filter isTopCSV files))
           (List.filter isImage files))
  ∧ (∀ ctx' feed it,
       handler ctx = Returned (ctx', feed) → In it (Feed.item feed) →
       ∃ file,
         In file files ∧ isTopCSV file = true
         ∧ Item.title it = date_of file ++ js " 轮动行情监控").
Proof.
  intros Hdir. split; [|split].
  - intros n1 n2 n3 d Hd%group_by_date_keys.
    apply has_date_true in Hd as (file & Hin%In_take%filter_In & Hdate).
    exists file. by destruct Hin.
  - apply group_by_date_ignores.
  - intros ctx' feed it Hfeed Hin.
    destruct (handler_items_from_valid ctx files ctx' feed it Hdir Hfeed Hin)
      as ([d g] & Hvalid & Hmake).
    apply make_item_title in Hmake as [Htitle _]. cbn [fst] in Htitle.
    unfold validRotationData in Hvalid.
    apply list_elem_of_In in Hvalid.
    rewrite array_sort_Permutation in Hvalid.
    apply list_elem_of_In, filter_In in Hvalid as [Hg _].
    apply list_elem_of_In, (list_elem_of_fmap_2 fst) in Hg. cbn [fst] in Hg.
    apply group_by_date_keys, has_date_filter in Hg
      as (file & Hfile & Htop & Hdate).
    exists file. by rewrite Hdate.
Qed.

End rotation_orphans.

(** ** The rotation monitor on the example directory *)

Lemma split_ends_with sep a n :
  Forall (λ c, c ≠ sep) n →
  ∃ piece pieces, split sep (a ++ sep :: n) = piece :: pieces ++ [n].
Proof.
  intros Hn. induction a as [|c a (piece & pieces & IH)].
  - exists [], []. cbn [app]. by rewrite split_cons, N.eqb_refl, split_without.
  - cbn [app]. rewrite split_cons, IH. destruct (c =? sep).
    + by exists [], (piece :: pieces).
    + by exists (c :: piece), pieces.
Qed.

(** The in-memory directory satisfies the two facts about [node:path]. *)
Lemma sample_node_laws dir base entries :
  @NodeLaws (Sample.node dir base entries).
Proof.
  split; cbn [path_join path_basename Sample.node].
  - intros d n Hnil. apply (f_equal length) in Hnil.
    unfold Sample.join in Hnil. rewrite !length_app in Hnil.
    change (length (js "/")) with 1%nat in Hnil. cbn [length] in Hnil. lia.
  - intros d n (_ & Hslash & _). unfold Sample.join, Sample.basename.
    change (js "/" ++ n) with (ch "/" :: n).
    destruct (split_ends_with (ch "/") d n) as (piece & pieces & ->).
    { apply Forall_forall. by intros c Hc ->. }
    by rewrite app_comm_cons, last_last.
Qed.

Lemma rotation_item_iff_both_witness :
  ∃ ctx' feed,
    @RotationMonitor.handler Sample.rotation_node (Sample.ctx "/data")
    = Returned (ctx', feed)
    ∧ ∀ d,
        (∃ it, In it (Feed.item feed)
               ∧ Item.title it = d ++ js " 轮动行情监控")
        ↔ (∃ file, In file (fst <$> Sample.rotation_entries)
                   ∧ RotationMonitor.isTopCSV file = true
                   ∧ date_of file = d)
          ∧ (∃ file, In file (fst <$> Sample.rotation_entries)
                     ∧ RotationMonitor.isBottomCSV file = true
                     ∧ date_of file = d).
Proof.
  apply (@rotation_item_iff_both Sample.rotation_node
           (sample_node_laws _ _ _) (Sample.ctx "/data")
           (fst <$> Sample.rotation_entries)).
  - reflexivity.
  - intros file Hin Hm. each_entry Hin;
      try (destruct Hm as [Hm|Hm]; discriminate Hm);
      eexists; vm_compute; reflexivity.
Defined.

Lemma rotation_chart_or_notice_witness :
  ∃ ctx' feed,
    @RotationMonitor.handler Sample.rotation_node (Sample.ctx "/data")
    = Returned (ctx', feed)
    ∧ ∀ d,
        (∃ file, In file (fst <$> Sample.rotation_entries)
                 ∧ RotationMonitor.isTopCSV file = true ∧ date_of file = d) →
        (∃ file, In file (fst <$> Sample.rotation_entries)
                 ∧ RotationMonitor.isBottomCSV file = true
                 ∧ date_of file = d) →
        ∃ it mdContent,
          In it (Feed.item feed)
          ∧ Item.title it = d ++ js " 轮动行情监控"
          ∧ Item.description it
            = @md_render Sample.rotation_node mdContent
          ∧ (∀ file, In file (fst <$> Sample.rotation_entries) →
               RotationMonitor.isImage file = true → date_of file = d →
               (js "## 📉 行业表现趋势" ++ [LF; LF]
                  ++ js "![行业表现趋势]("
                  ++ (or_else
                        (@env_ROTATION_IMAGE_BASE_URL Sample.rotation_node)
                        (js "http://localhost:1200/rotation-images")
                        ++ js "/" ++ name file)
                  ++ js ")" ++ [LF; LF])
               `suffix_of` mdContent)
          ∧ ((¬ ∃ file, In file (fst <$> Sample.rotation_entries)
                        ∧ RotationMonitor.isImage file = true
                        ∧ date_of file = d) →
               (js "## 📉 行业表现趋势" ++ [LF; LF]
                  ++ js "> 暂无行业表现趋势图表" ++ [LF; LF])
               `suffix_of` mdContent).
Proof.
  apply (@rotation_chart_or_notice Sample.rotation_node
           (sample_node_laws _ _ _) (Sample.ctx "/data")
           (fst <$> Sample.rotation_entries)).
  - reflexivity.
  - intros file Hin Hm. each_entry Hin;
      try (destruct Hm as [Hm|Hm]; discriminate Hm);
      eexists; vm_compute; reflexivity.
Defined.

Lemma rotation_groups_need_top_witness :
  (∀ n1 n2 n3 d,
     d ∈ (@RotationMonitor.group_by_date Sample.rotation_node (js "/data")
            (take n1 (List.filter RotationMonitor.isTopCSV
                        (fst <$> Sample.rotation_entries)))
            (take n2 (List.filter RotationMonitor.isBottomCSV
                        (fst <$> Sample.rotation_entries)))
            (take n3 (List.filter RotationMonitor.isImage
                        (fst <$> Sample.rotation_entries)))).*1 →
     ∃ file, In file (fst <$> Sample.rotation_entries)
             ∧ RotationMonitor.isTopCSV file = true ∧ date_of file = d)
  ∧ ∀ ctx' feed it,
      @RotationMonitor.handler Sample.rotation_node (Sample.ctx "/data")
      = Returned (ctx', feed) →
      In it (Feed.item feed) →
      ∃ file,
        In file (fst <$> Sample.rotation_entries)
        ∧ RotationMonitor.isTopCSV file = true
        ∧ Item.title it = date_of file ++ js " 轮动行情监控".
Proof.
  destruct (@rotation_groups_need_top Sample.rotation_node
              (Sample.ctx "/data") (fst <$> Sample.rotation_entries) eq_refl)
    as (Hkeys & _ & Hitems).
  split; [exact Hkeys|exact Hitems].
Defined.

(** The example directory: the dates with both CSV files are 20240105 and
    20240102; 20240103 has a top-category file only, 20240104 a
    bottom-category file and an image only. *)
Example rotation_example_dates :
  ∃ ctx' feed,
    @RotationMonitor.handler Sample.rotation_node (Sample.ctx "/data")
    = Returned (ctx', feed)
    ∧ Item.title <$> Feed.item feed
      = [js "20240105 轮动行情监控"; js "20240102 轮动行情监控"].
Proof. eexists _, _. split; vm_compute; reflexivity. Qed.

(** * Further properties of the code *)

(** ** Records built by the parsers *)

Lemma fill_record_snoc cell headers x :
  fill_record cell (headers ++ [x])
  = set_property (fill_record cell headers) x (cell (length headers)).
Proof.
  unfold fill_record. rewrite imap_app, foldl_app. cbn [imap foldl].
  by rewrite Nat.add_0_r.
Qed.

(** A column that occurs several times is read at its last occurrence. *)
Lemma fill_record_last cell headers i h :
  h ≠ js "__proto__" →
  headers !! i = Some h →
  (∀ j, (i < j)%nat → headers !! j ≠ Some h) →
  fill_record cell headers !! h = Some (cell i).
Proof.
  intros Hproto.
  induction headers as [|x headers IH] using rev_ind; intros Hi Hlast; [done|].
  rewrite fill_record_snoc. destruct (decide (x = h)) as [->|Hne].
  - rewrite set_property_other, lookup_insert_eq by done. f_equal. f_equal.
    destruct (decide (i = length headers)) as [|Hi']; [done|]. exfalso.
    apply (Hlast (length headers)).
    + apply lookup_lt_Some in Hi. rewrite length_app in Hi. simpl in Hi. lia.
    + by rewrite lookup_app_r, Nat.sub_diag.
  - assert (set_property (fill_record cell headers) x (cell (length headers))
              !! h = fill_record cell headers !! h) as ->.
    { unfold set_property. case_bool_decide; [done|].
      by rewrite lookup_insert_ne. }
    apply lookup_app_Some in Hi as [Hi|[_ Hi]].
    + apply IH; [done|]. intros j Hj Hh. apply (Hlast j Hj).
      by apply lookup_app_l_Some.
    + apply list_lookup_singleton_Some in Hi as [_ ?]. done.
Qed.

Lemma fill_record_dom cell headers :
  dom (fill_record cell headers) = list_to_set headers ∖ {[js "__proto__"]}.
Proof.
  induction headers as [|x headers IH] using rev_ind.
  - unfold fill_record. cbn [imap foldl list_to_set].
    rewrite dom_empty_L. apply set_eq. intros k.
    rewrite elem_of_difference. split; [by intros ?%elem_of_empty|].
    by intros [?%elem_of_empty _].
  - rewrite fill_record_snoc, list_to_set_app_L. cbn [list_to_set].
    apply set_eq. intros k. unfold set_property. case_bool_decide as Hx.
    + rewrite IH, !elem_of_difference, !elem_of_union, elem_of_empty.
      subst x. tauto.
    + rewrite dom_insert_L, IH, !elem_of_union, !elem_of_difference,
        !elem_of_union, !elem_of_singleton, elem_of_empty.
      split; [|tauto]. intros [->|?]; [|tauto]. split; [tauto|done].
Qed.

Lemma fill_record_values (P : jsstring → Prop) cell headers :
  (∀ i, P (cell i)) → map_Forall (λ _ v, P v) (fill_record cell headers).
Proof.
  intros HP. induction headers as [|x headers IH] using rev_ind.
  - apply map_Forall_empty.
  - rewrite fill_record_snoc. unfold set_property.
    case_bool_decide; [done|]. by apply map_Forall_insert_2.
Qed.

Lemma fill_record_fmap (f : jsstring → jsstring) cell headers :
  fill_record (f ∘ cell) headers = f <$> fill_record cell headers.
Proof.
  induction headers as [|x headers IH] using rev_ind.
  - unfold fill_record. cbn [imap foldl]. by rewrite fmap_empty.
  - rewrite !fill_record_snoc, IH. unfold set_property.
    case_bool_decide; [done|]. by rewrite fmap_insert.
Qed.

Lemma fill_record_ext cell1 cell2 headers :
  (∀ i, (i < length headers)%nat → cell1 i = cell2 i) →
  fill_record cell1 headers = fill_record cell2 headers.
Proof.
  induction headers as [|x headers IH] using rev_ind; intros Hc; [done|].
  rewrite !fill_record_snoc, IH, Hc; [done| |].
  - rewrite length_app. simpl. lia.
  - intros i Hi. apply Hc. rewrite length_app. lia.
Qed.

Lemma or_else_nonempty v d : d ≠ [] → or_else v d ≠ [].
Proof. intros Hd. by destruct v as [[|c s]|]. Qed.

(** The cell the rotation monitor reads: the placeholder is applied twice. *)
Lemma rotation_cell line i :
  or_else (((λ v, or_else (Some (trim v)) (js "-"))
              <$> split (ch ",") line) !! i) (js "-")
  = or_else ((trim <$> split (ch ",") line) !! i) (js "-").
Proof.
  rewrite !list_lookup_fmap. destruct (split (ch ",") line !! i) as [v|]; [|done].
  cbn [fmap option_fmap option_map]. by destruct (trim v).
Qed.

Lemma stockpicker_record_of_fill headers line :
  StockPicker.record_of headers line
  = fill_record
      (λ index, or_else ((trim <$> split (ch ",") line) !! index) []) headers.
Proof. reflexivity. Qed.

Lemma rotation_record_of_fill headers line :
  RotationMonitor.record_of headers line
  = fill_record
      (λ index, or_else ((trim <$> split (ch ",") line) !! index) (js "-"))
      headers.
Proof.
  unfold RotationMonitor.record_of. apply fill_record_ext. intros i _.
  apply rotation_cell.
Qed.

Lemma split_app sep a b :
  split sep (a ++ sep :: b) = split sep a ++ split sep b.
Proof.
  induction a as [|c a IH]; cbn [app].
  - by rewrite split_cons, N.eqb_refl.
  - rewrite !split_cons, IH. destruct (c =? sep); [done|].
    destruct (split_lookup_0 sep a) as [p Hp].
    by destruct (split sep a).
Qed.

(** X1. Both parsers read a row by column name: the record of the k-th data
    line maps a header other than [__proto__] to the trimmed cell of its
    column (of its last column when the header occurs more than once), and
    to the empty string (stock picker) or [-] (rotation monitor) when that
    cell is missing or blank. *)
Theorem parseCSV_cell content k line i h :
  h ≠ js "__proto__" →
  data_lines content !! k = Some line →
  header_fields content !! i = Some h →
  (∀ j, (i < j)%nat → header_fields content !! j ≠ Some h) →
  (∃ records record,
     StockPicker.parseCSV content = Returned records
     ∧ records !! k = Some record
     ∧ record !! h
       = Some (or_else ((trim <$> split (ch ",") line) !! i) []))
  ∧ (∃ records record,
       RotationMonitor.parseCSV content = Returned records
       ∧ records !! k = Some record
       ∧ record !! h
         = Some (or_else ((trim <$> split (ch ",") line) !! i) (js "-"))).
Proof.
  intros Hproto Hline Hi Hlast. split.
  - eexists _, _. split; [apply parseCSV_returns|]. split.
    + rewrite list_lookup_fmap, Hline. reflexivity.
    + rewrite stockpicker_record_of_fill.
      exact (fill_record_last
               (λ index, or_else ((trim <$> split (ch ",") line) !! index) [])
               _ i h Hproto Hi Hlast).
  - eexists _, _. split; [apply rotation_parseCSV_returns|]. split.
    + rewrite list_lookup_fmap, Hline. reflexivity.
    + rewrite rotation_record_of_fill.
      exact (fill_record_last
               (λ index,
                  or_else ((trim <$> split (ch ",") line) !! index) (js "-"))
               _ i h Hproto Hi Hlast).
Qed.

Lemma parseCSV_cell_witness :
  (∃ records record,
     StockPicker.parseCSV Sample.industry_csv = Returned records
     ∧ records !! 0%nat = Some record
     ∧ record !! js "name"
       = Some (or_else
                 ((trim <$> split (ch ",") (js "000001.SZ,PingAn,Banking"))
                    !! 1%nat) []))
  ∧ (∃ records record,
       RotationMonitor.parseCSV Sample.industry_csv = Returned records
       ∧ records !! 0%nat = Some record
       ∧ record !! js "name"
         = Some (or_else
                   ((trim <$> split (ch ",") (js "000001.SZ,PingAn,Banking"))
                      !! 1%nat) (js "-"))).
Proof.
  apply (parseCSV_cell Sample.industry_csv 0 (js "000001.SZ,PingAn,Banking")
           1 (js "name")).
  - intros Heq. vm_compute in Heq. discriminate Heq.
  - vm_compute. reflexivity.
  - vm_compute. reflexivity.
  - intros j Hj. destruct j as [|[|[|j]]]; [lia|lia|vm_compute; discriminate|].
    vm_compute. destruct j; discriminate.
Defined.

(** X2. Every record either parser returns has exactly the header fields of
    the first line other than [__proto__] as its keys: a column of that
    name never becomes a key. *)
Theorem parseCSV_record_keys content :
  (∃ records,
     StockPicker.parseCSV content = Returned records
     ∧ Forall (λ record : gmap jsstring jsstring,
                 dom record
                 = list_to_set (header_fields content) ∖ {[js "__proto__"]})
         records)
  ∧ (∃ records,
       RotationMonitor.parseCSV content = Returned records
       ∧ Forall (λ record : gmap jsstring jsstring,
                   dom record
                   = list_to_set (header_fields content) ∖ {[js "__proto__"]})
           records).
Proof.
  split; eexists;
    (split; [first [apply parseCSV_returns|apply rotation_parseCSV_returns]|]);
    apply Forall_fmap, Forall_forall; intros line _; cbn [compose];
    rewrite ?stockpicker_record_of_fill, ?rotation_record_of_fill;
    apply fill_record_dom.
Qed.

(** X3. No record of the rotation monitor's parser holds an empty string:
    a blank or missing cell is [-]. *)
Theorem rotation_parseCSV_no_blank content :
  ∃ records,
    RotationMonitor.parseCSV content = Returned records
    ∧ Forall (λ record : gmap jsstring jsstring,
                ∀ h v, record !! h = Some v → v ≠ []) records.
Proof.
  eexists. split; [apply rotation_parseCSV_returns|].
  apply Forall_fmap, Forall_forall. intros line _ h v Hv. cbn [compose] in Hv.
  rewrite rotation_record_of_fill in Hv.
  revert h v Hv. apply (fill_record_values (λ v, v ≠ [])).
  intros i. by apply or_else_nonempty.
Qed.

(** X4. The two parsers differ in the placeholder only: a record of the
    rotation monitor is the record of the stock picker for the same line
    with every empty value replaced by [-]. *)
Theorem parsers_agree content :
  ∃ stock rotation,
    StockPicker.parseCSV content = Returned stock
    ∧ RotationMonitor.parseCSV content = Returned rotation
    ∧ Forall2 (λ s r : gmap jsstring jsstring,
                 r = (λ v, or_else (Some v) (js "-")) <$> s) stock rotation.
Proof.
  eexists _, _. split; [apply parseCSV_returns|].
  split; [apply rotation_parseCSV_returns|].
  apply Forall2_fmap, Forall_Forall2_diag, Forall_forall. intros line _.
  rewrite stockpicker_record_of_fill, rotation_record_of_fill.
  rewrite <- fill_record_fmap. apply fill_record_ext. intros i _.
  cbn [compose].
  by destruct ((trim <$> split (ch ",") line) !! i) as [[|c v]|].
Qed.

(** X5. Cells beyond the last header are dropped: a row that has a cell for
    every header gives the same record when further cells follow. *)
Theorem parseCSV_surplus_cells headers line extra :
  (length headers ≤ length (split (ch ",") line))%nat →
  StockPicker.record_of headers (line ++ ch "," :: extra)
  = StockPicker.record_of headers line
  ∧ RotationMonitor.record_of headers (line ++ ch "," :: extra)
    = RotationMonitor.record_of headers line.
Proof.
  intros Hlen.
  rewrite !stockpicker_record_of_fill, !rotation_record_of_fill.
  split; apply fill_record_ext; intros i Hi;
    by rewrite split_app, fmap_app, lookup_app_l
      by (rewrite length_fmap; lia).
Qed.

Lemma parseCSV_surplus_cells_witness :
  StockPicker.record_of [js "a"; js "b"] (js "1,2" ++ ch "," :: js "3,4")
  = StockPicker.record_of [js "a"; js "b"] (js "1,2")
  ∧ RotationMonitor.record_of [js "a"; js "b"] (js "1,2" ++ ch "," :: js "3,4")
    = RotationMonitor.record_of [js "a"; js "b"] (js "1,2").
Proof.
  apply (parseCSV_surplus_cells [js "a"; js "b"] (js "1,2") (js "3,4")).
  vm_compute. lia.
Defined.

(** ** When the handlers throw *)

Lemma promise_all_Thrown {A B} (f : A → outcome B) xs e :
  promise_all f xs = Thrown e → ∃ x, In x xs ∧ f x = Thrown e.
Proof.
  unfold promise_all. induction xs as [|x xs IH]; [done|]. cbn [mapM].
  destruct (f x) as [y|e'] eqn:Hx; cbn [mbind outcome_bind].
  - destruct (mapM f xs) as [ys|e'] eqn:Hxs; cbn [mbind outcome_bind mret outcome_ret];
      [done|].
    intros [= ->]. destruct (IH eq_refl) as (x' & ? & ?).
    exists x'. split; [by right|done].
  - intros [= ->]. exists x. split; [by left|done].
Qed.

Lemma promise_all_throws {A B} (f : A → outcome B) xs x e :
  In x xs → f x = Thrown e → ∃ e', promise_all f xs = Thrown e'.
Proof.
  unfold promise_all. induction xs as [|x0 xs IH]; [done|].
  intros [->|Hin] Hx; cbn [mapM].
  - rewrite Hx. by eexists.
  - destruct (f x0); cbn [mbind outcome_bind]; [|by eexists].
    destruct (IH Hin Hx) as [e' ->]. by eexists.
Qed.

Lemma In_length_nonzero {A} (x : A) l : In x l → length l ≠ 0%nat.
Proof. by destruct l. Qed.

Section stockpicker_errors.
Context `{Node}.
Import StockPicker.

Lemma make_item_read directory file it :
  make_item directory file = Returned it →
  ∃ content, readFile (path_join directory (name file)) = Returned content.
Proof.
  unfold make_item. destruct (readFile _) as [content|]; [|done]. by eexists.
Qed.

(** X6. With a readable directory the stock picker returns a feed exactly
    when every file that matches the pattern can be read: one failed read
    makes the whole request throw, and nothing else does. *)
Theorem stockpicker_returns_iff ctx files :
  readdir (req_param_directory ctx) = Returned files →
  (∃ feed, handler ctx = Returned feed)
  ↔ (∀ file, In file files → is_stock_file file = true →
       ∃ content,
         readFile (path_join (req_param_directory ctx) (name file))
         = Returned content).
Proof.
  intros Hdir. split.
  - intros [feed Hfeed] file Hin Hm. unfold handler in Hfeed.
    rewrite Hdir in Hfeed. cbn [mbind outcome_bind] in Hfeed.
    destruct (promise_all _ _) as [items|] eqn:Hitems; [|done].
    apply promise_all_inv in Hitems.
    destruct (Forall2_In_l _ _ _ file Hitems) as (it & _ & Hit).
    { apply list_elem_of_In. rewrite array_sort_Permutation.
      by apply list_elem_of_In, filter_In. }
    by apply make_item_read in Hit.
  - intros Hread. destruct (handler_returns ctx files Hdir Hread)
      as (items & -> & _). by eexists.
Qed.

End stockpicker_errors.

Lemma stockpicker_returns_iff_witness :
  (∃ feed,
     @StockPicker.handler Sample.stock_node (Sample.ctx "/data") = Returned feed)
  ↔ (∀ file, In file (fst <$> Sample.stock_entries) →
       StockPicker.is_stock_file file = true →
       ∃ content,
         @readFile Sample.stock_node
           (@path_join Sample.stock_node (js "/data") (name file))
         = Returned content).
Proof.
  apply (@stockpicker_returns_iff Sample.stock_node (Sample.ctx "/data")
           (fst <$> Sample.stock_entries)).
  reflexivity.
Defined.

Section rotation_errors.
Context `{Node}.
Import RotationMonitor.

(** The valid entries without the facts about [node:path]. *)
Lemma validRotationData_paired directory files d g :
  In (d, g) (validRotationData directory files) →
  group_of directory (List.filter isTopCSV files)
    (List.filter isBottomCSV files) (List.filter isImage files) d = Some g
  ∧ has_date d (List.filter isTopCSV files) = true
  ∧ has_date d (List.filter isBottomCSV files) = true.
Proof.
  unfold validRotationData.
  rewrite <- list_elem_of_In, array_sort_Permutation, list_elem_of_In, filter_In.
  intros [Hin Hc]. apply map_In_get in Hin; [|apply group_by_date_NoDup].
  rewrite group_by_date_get in Hin by apply filter_Forall.
  split; [done|]. unfold group_of in Hin.
  destruct (has_date d (List.filter isTopCSV files)); [|done].
  split; [done|]. apply (inj Some) in Hin as <-.
  unfold complete in Hc. cbn [snd top bottom] in Hc.
  destruct (has_date d (List.filter isBottomCSV files)); [done|].
  by rewrite andb_false_r in Hc.
Qed.

(** X7. Top and bottom files that never share a date: the rotation monitor
    returns, without reading any file, the feed with no items that says no
    complete rotation data was found. *)
Theorem rotation_no_complete_pair ctx files :
  readdir (req_param_directory ctx) = Returned files →
  (∃ file, In file files ∧ isTopCSV file = true) →
  (∃ file, In file files ∧ isBottomCSV file = true) →
  (∀ d, ¬ (has_date d (List.filter isTopCSV files) = true
           ∧ has_date d (List.filter isBottomCSV files) = true)) →
  handler ctx
  = Returned
      (ctx,
       {| Feed.title := js "轮动行情监控";
          Feed.link := Some (req_param_directory ctx);
          Feed.description := js "未找到完整的轮动行情数据";
          Feed.item := [] |}).
Proof.
  intros Hdir (ft & Hft & Htop) (fb & Hfb & Hbot) Hnone.
  unfold handler, feed_of_listing. rewrite Hdir.
  assert (In ft (List.filter isTopCSV files)) as Ht by by apply filter_In.
  assert (In fb (List.filter isBottomCSV files)) as Hb by by apply filter_In.
  destruct (_ || _) eqn:Hempty.
  { exfalso. apply orb_prop in Hempty as [He|He];
      apply bool_decide_eq_true in He;
      [exact (In_length_nonzero _ _ Ht He)|exact (In_length_nonzero _ _ Hb He)]. }
  destruct (validRotationData (req_param_directory ctx) files)
    as [|[d g] valid] eqn:Hvalid; [reflexivity|]. exfalso.
  apply (Hnone d).
  apply (validRotationData_paired (req_param_directory ctx) files d g).
  rewrite Hvalid. by left.
Qed.

(** X8. The rotation monitor sets the status and leaves the link out only
    when the directory cannot be listed; otherwise the context is returned
    as it was and the link is the directory. *)
Theorem rotation_status_and_link ctx ctx' feed :
  handler ctx = Returned (ctx', feed) →
  (status ctx' = Some 400 ∧ Feed.link feed = None
   ∧ ∃ message, readdir (req_param_directory ctx) = Thrown message)
  ∨ (ctx' = ctx ∧ Feed.link feed = Some (req_param_directory ctx)
     ∧ ∃ files, readdir (req_param_directory ctx) = Returned files).
Proof.
  unfold handler, feed_of_listing.
  destruct (readdir (req_param_directory ctx)) as [files|message].
  - intros Hfeed. right.
    assert (ctx' = ctx ∧ Feed.link feed = Some (req_param_directory ctx))
      as [-> ->]; [|eauto].
    revert Hfeed. destruct (_ || _); cbn [mbind outcome_bind].
    { by intros [= <- <-]. }
    destruct (decide (length (validRotationData (req_param_directory ctx) files)
                      = 0%nat)).
    { rewrite bool_decide_eq_true_2 by done. cbn [mbind outcome_bind].
      by intros [= <- <-]. }
    rewrite bool_decide_eq_false_2 by done.
    destruct (promise_all _ _); cbn [mbind outcome_bind]; [|done].
    by intros [= <- <-].
  - intros [= <- <-]. left. eauto.
Qed.

Context `{!NodeLaws}.

Lemma make_item_Thrown d g e :
  make_item (d, g) = Thrown e →
  readFile (top g) = Thrown e ∨ readFile (bottom g) = Thrown e.
Proof.
  unfold make_item.
  destruct (readFile (top g)) as [tc|]; cbn [mbind outcome_bind];
    [|intros [= ->]; by left].
  rewrite rotation_parseCSV_returns. cbn [mbind outcome_bind].
  destruct (readFile (bottom g)) as [bc|]; cbn [mbind outcome_bind];
    [|intros [= ->]; by right].
  by rewrite rotation_parseCSV_returns.
Qed.

Lemma make_item_throws d g :
  (∃ e, readFile (top g) = Thrown e) ∨ (∃ e, readFile (bottom g) = Thrown e) →
  ∃ e, make_item (d, g) = Thrown e.
Proof.
  unfold make_item. intros [[e He]|[e He]].
  - rewrite He. by eexists.
  - destruct (readFile (top g)); cbn [mbind outcome_bind]; [|by eexists].
    rewrite rotation_parseCSV_returns. cbn [mbind outcome_bind].
    rewrite He. by eexists.
Qed.

(** X9. The rotation monitor throws exactly when the directory can be
    listed and a top or bottom CSV of a date that has both cannot be read;
    unreadable images and unpaired CSV files never make it fail. *)
Theorem rotation_throws_iff ctx :
  (∃ e, handler ctx = Thrown e)
  ↔ ∃ files file,
      readdir (req_param_directory ctx) = Returned files
      ∧ In file files
      ∧ (isTopCSV file = true ∨ isBottomCSV file = true)
      ∧ has_date (date_of file) (List.filter isTopCSV files) = true
      ∧ has_date (date_of file) (List.filter isBottomCSV files) = true
      ∧ ∃ e, readFile (path_join (req_param_directory ctx) (name file))
             = Thrown e.
Proof.
  split.
  - intros [e He]. unfold handler in He.
    destruct (readdir (req_param_directory ctx)) as [files|] eqn:Hdir; [|done].
    exists files. unfold feed_of_listing in He. revert He.
    destruct (_ || _); cbn [mbind outcome_bind]; [done|].
    destruct (decide (length (validRotationData (req_param_directory ctx) files)
                      = 0%nat)).
    { by rewrite bool_decide_eq_true_2 by done. }
    rewrite bool_decide_eq_false_2 by done.
    destruct (promise_all _ _) as [|e'] eqn:Hitems; cbn [mbind outcome_bind];
      [done|].
    intros _. apply promise_all_Thrown in Hitems as ([d g] & Hin & Hmake).
    apply validRotationData_paired in Hin as (Hg & Ht & Hb).
    unfold group_of in Hg. rewrite Ht, Hb in Hg. apply (inj Some) in Hg as <-.
    apply make_item_Thrown in Hmake as [Hr|Hr]; cbn [top bottom] in Hr.
    + pose proof Ht as Ht'.
      apply has_date_filter in Ht' as (ft & Hft & Htop & <-).
      exists ft. rewrite <- (isTopCSV_name _ Htop) in Hr.
      split; [reflexivity|]. split; [exact Hft|]. split; [left; exact Htop|].
      split; [exact Ht|]. split; [exact Hb|]. eexists. exact Hr.
    + pose proof Hb as Hb'.
      apply has_date_filter in Hb' as (fb & Hfb & Hbot & <-).
      exists fb. rewrite <- (isBottomCSV_name _ Hbot) in Hr.
      split; [reflexivity|]. split; [exact Hfb|]. split; [right; exact Hbot|].
      split; [exact Ht|]. split; [exact Hb|]. eexists. exact Hr.
  - intros (files & file & Hdir & Hin & Hkind & Ht & Hb & e & He).
    set (d := date_of file) in *.
    set (g := {| top := path_join (req_param_directory ctx) (d ++ top_suffix);
                 bottom := path_join (req_param_directory ctx) (d ++ bottom_suffix);
                 image := if has_date d (List.filter isImage files)
                          then Some (path_join (req_param_directory ctx)
                                       (d ++ image_suffix))
                          else None |}).
    assert (In (d, g) (validRotationData (req_param_directory ctx) files))
      as Hvalid.
    { apply validRotationData_In. split; [|done]. unfold group_of.
      by rewrite Ht, Hb. }
    destruct (make_item_throws d g) as [e1 He1].
    { subst g d. cbn [top bottom]. destruct Hkind as [Hk|Hk].
      - left. exists e. rewrite <- (isTopCSV_name _ Hk). exact He.
      - right. exists e. rewrite <- (isBottomCSV_name _ Hk). exact He. }
    destruct (promise_all_throws make_item _ _ _ Hvalid He1) as [e2 He2].
    exists e2. unfold handler, feed_of_listing. rewrite Hdir.
    apply has_date_true in Hb as (fb & Hfb & _).
    apply has_date_true in Ht as (ft & Hft & _).
    destruct (_ || _) eqn:Hempty.
    { exfalso. apply orb_prop in Hempty as [He'|He'];
        apply bool_decide_eq_true in He';
        [exact (In_length_nonzero _ _ Hft He')
        |exact (In_length_nonzero _ _ Hfb He')]. }
    destruct (decide (length (validRotationData (req_param_directory ctx) files)
                      = 0%nat)) as [Hz|Hz].
    { exfalso. exact (In_length_nonzero _ _ Hvalid Hz). }
    rewrite bool_decide_eq_false_2 by exact Hz.
    cbn [mbind outcome_bind]. rewrite He2. reflexivity.
Qed.
End rotation_errors.

Lemma rotation_no_complete_pair_witness :
  @RotationMonitor.handler Sample.unpaired_node (Sample.ctx "/data")
  = Returned
      (Sample.ctx "/data",
       {| Feed.title := js "轮动行情监控";
          Feed.link := Some (req_param_directory (Sample.ctx "/data"));
          Feed.description := js "未找到完整的轮动行情数据";
          Feed.item := [] |}).
Proof.
  apply (@rotation_no_complete_pair Sample.unpaired_node (Sample.ctx "/data")
           (fst <$> Sample.unpaired_entries)).
  - reflexivity.
  - eexists. split; [left; reflexivity|vm_compute; reflexivity].
  - eexists. split; [right; left; reflexivity|vm_compute; reflexivity].
  - intros d [Ht Hb].
    apply has_date_true in Ht as (ft & Hft & <-).
    apply has_date_true in Hb as (fb & Hfb & Hd).
    vm_compute in Hft, Hfb. destruct Hft as [<-|[]]. destruct Hfb as [<-|[]].
    vm_compute in Hd. discriminate Hd.
Defined.

Lemma rotation_status_and_link_witness :
  (status {| req_param_directory := js "/missing"; status := Some 400 |}
   = Some 400
   ∧ (None : option jsstring) = None
   ∧ ∃ message,
       @readdir Sample.other_node (req_param_directory (Sample.ctx "/missing"))
       = Thrown message)
  ∨ ({| req_param_directory := js "/missing"; status := Some 400 |}
     = Sample.ctx "/missing"
     ∧ (None : option jsstring) = Some (req_param_directory (Sample.ctx "/missing"))
     ∧ ∃ files,
         @readdir Sample.other_node
           (req_param_directory (Sample.ctx "/missing"))
         = Returned files).
Proof.
  apply (@rotation_status_and_link Sample.other_node (Sample.ctx "/missing")
           {| req_param_directory := js "/missing"; status := Some 400 |}
           {| Feed.title := js "读取失败";
              Feed.link := None;
              Feed.description :=
                js "无法读取目录: " ++ js "/missing" ++ js "，错误信息: "
                  ++ js "ENOENT: no such file or directory, scandir";
              Feed.item := [] |}).
  reflexivity.
Defined.

Lemma rotation_throws_iff_witness :
  ∃ e, @RotationMonitor.handler Sample.broken_node (Sample.ctx "/data")
       = Thrown e.
Proof.
  apply (@rotation_throws_iff Sample.broken_node (sample_node_laws _ _ _)
           (Sample.ctx "/data")).
  exists (fst <$> Sample.broken_entries),
    (Sample.file "20240102_bottom_industry_stocks.csv").
  split; [reflexivity|]. split; [right; left; reflexivity|].
  split; [right; vm_compute; reflexivity|].
  split; [vm_compute; reflexivity|]. split; [vm_compute; reflexivity|].
  eexists. vm_compute. reflexivity.
Defined.

(** ** The order of the items *)

Lemma localeCompare_refl a : localeCompare a a = Eq.
Proof. induction a as [|x a IH]; [done|]. simpl. by rewrite N.compare_refl. Qed.

Lemma localeCompare_eq a b : localeCompare a b = Eq → a = b.
Proof.
  revert b. induction a as [|x a IH]; intros [|y b]; simpl; try done.
  destruct (N.compare_spec x y); try done. subst. intros ?%IH. by subst.
Qed.

Lemma filter_fmap_NoDup {A B} (f : A → B) (p : A → bool) l :
  NoDup (f <$> l) → NoDup (f <$> List.filter p l).
Proof.
  induction l as [|x l IH]; [done|]. cbn [List.filter]. rewrite fmap_cons.
  intros [Hx Hl]%NoDup_cons. destruct (p x); [|auto].
  rewrite fmap_cons. apply NoDup_cons. split; [|auto].
  intros Hin. apply Hx. apply list_elem_of_fmap in Hin as (y & -> & Hy).
  apply list_elem_of_fmap. exists y. split; [done|].
  by apply list_elem_of_In, filter_In in Hy as [?%list_elem_of_In _].
Qed.

Lemma StronglySorted_NoDup {A B} (R : A → A → Prop) (f : A → B) l :
  StronglySorted R l → NoDup (f <$> l) →
  StronglySorted (λ a b, R a b ∧ f a ≠ f b) l.
Proof.
  induction 1 as [|x l Hl IH Hx]; [constructor|]. rewrite fmap_cons.
  intros [Hnx Hnl]%NoDup_cons. constructor; [auto|].
  apply Forall_forall. intros y Hy. split.
  - rewrite Forall_forall in Hx. auto.
  - intros Heq. apply Hnx. rewrite Heq. by apply list_elem_of_fmap_2.
Qed.

Section stable.
Context {A : Type} (cmp : A → A → comparison) (p : A → bool).
Hypothesis same : ∀ x y, p x = true → p y = true → cmp x y ≠ Gt.

Lemma insert_sorted_filter x l :
  List.filter p (insert_sorted cmp x l)
  = if p x then x :: List.filter p l else List.filter p l.
Proof.
  induction l as [|y l IH]; [done|]. cbn [insert_sorted].
  destruct (cmp x y) eqn:Hxy; try done.
  cbn [List.filter]. rewrite IH.
  destruct (p x) eqn:Hx, (p y) eqn:Hy; try done.
  by destruct (same x y Hx Hy).
Qed.

(** The sort is stable: the elements the comparator does not tell apart
    keep their order. *)
Lemma array_sort_filter l :
  List.filter p (array_sort cmp l) = List.filter p l.
Proof.
  induction l as [|x l IH]; [done|].
  unfold array_sort in *. cbn [foldr List.filter].
  by rewrite insert_sorted_filter, IH.
Qed.
End stable.

Lemma Forall2_filter {A B} (R : A → B → Prop) (p : A → bool) (q : B → bool)
    xs ys :
  Forall2 (λ x y, R x y ∧ p x = q y) xs ys →
  Forall2 R (List.filter p xs) (List.filter q ys).
Proof.
  induction 1 as [|x y xs ys [HR Hpq] _ IH]; [constructor|].
  cbn [List.filter]. rewrite Hpq. destruct (q y); [by constructor|done].
Qed.

Section stockpicker_order.
Context `{Node}.
Import StockPicker.

Lemma handler_items ctx files feed :
  readdir (req_param_directory ctx) = Returned files →
  handler ctx = Returned feed →
  Forall2 (λ file it,
             make_item (req_param_directory ctx) file = Returned it
             ∧ is_stock_file file = true)
    (array_sort by_date_desc (List.filter is_stock_file files))
    (Feed.item feed).
Proof.
  intros Hdir. unfold handler. rewrite Hdir. cbn [mbind outcome_bind].
  destruct (promise_all _ _) as [items|] eqn:Hitems; [|done].
  cbn [mbind outcome_bind]. intros <-%Returned_inj. cbn [Feed.item].
  apply promise_all_inv in Hitems.
  assert (Forall (λ file, is_stock_file file = true)
            (array_sort by_date_desc (List.filter is_stock_file files))) as Hm.
  { apply Forall_forall. intros file Hin.
    rewrite array_sort_Permutation in Hin.
    by apply list_elem_of_In, filter_In in Hin as [_ ?]. }
  clear -Hitems Hm. induction Hitems as [|file it fs its Hit _ IH];
    [constructor|].
  apply Forall_cons in Hm as [Hf Hm]. constructor; auto.
Qed.

(** X10. Files of the same date keep the order of the directory listing:
    the items of a date are the items of the matching files of that date,
    in listing order. *)
Theorem stockpicker_same_date_order ctx files feed d :
  readdir (req_param_directory ctx) = Returned files →
  handler ctx = Returned feed →
  Forall2 (λ file it, make_item (req_param_directory ctx) file = Returned it)
    (List.filter (λ file, bool_decide (date_of file = d))
       (List.filter is_stock_file files))
    (List.filter (λ it, bool_decide (item_date it = d)) (Feed.item feed)).
Proof.
  intros Hdir Hfeed.
  rewrite <- (array_sort_filter by_date_desc
                (λ file, bool_decide (date_of file = d))).
  - apply Forall2_filter.
    eapply Forall2_impl; [exact (handler_items ctx files feed Hdir Hfeed)|].
    intros file it [Hit Hm]. split; [done|]. cbn beta.
    by rewrite (make_item_date _ _ _ Hm Hit).
  - intros x y Hx%bool_decide_eq_true Hy%bool_decide_eq_true.
    unfold by_date_desc. fold (date_of x) (date_of y).
    by rewrite Hx, Hy, localeCompare_refl.
Qed.
End stockpicker_order.

Lemma stockpicker_same_date_order_witness :
  ∃ feed,
    @StockPicker.handler Sample.same_date_node (Sample.ctx "/data")
    = Returned feed
    ∧ Forall2 (λ file it,
                 @StockPicker.make_item Sample.same_date_node
                   (req_param_directory (Sample.ctx "/data")) file
                 = Returned it)
        (List.filter (λ file, bool_decide (date_of file = js "20240102"))
           (List.filter StockPicker.is_stock_file
              (fst <$> Sample.same_date_entries)))
        (List.filter (λ it, bool_decide (item_date it = js "20240102"))
           (Feed.item feed)).
Proof.
  eexists. split; [vm_compute; reflexivity|].
  apply (@stockpicker_same_date_order Sample.same_date_node
           (Sample.ctx "/data") (fst <$> Sample.same_date_entries)).
  - reflexivity.
  - vm_compute. reflexivity.
Defined.

(** The files of 20240102 come out as listed: b before a. *)
Example stockpicker_same_date_example :
  ∃ feed,
    @StockPicker.handler Sample.same_date_node (Sample.ctx "/data")
    = Returned feed
    ∧ Item.title <$> Feed.item feed
      = [js "20241399 X 选股结果"; js "20240102 B 选股结果";
         js "20240102 A 选股结果"].
Proof. eexists. split; vm_compute; reflexivity. Qed.

Lemma StronglySorted_weaken {A} (R S : A → A → Prop) l :
  (∀ a b, R a b → S a b) → StronglySorted R l → StronglySorted S l.
Proof.
  intros HRS. induction 1 as [|x l _ IH Hx]; constructor; [done|].
  eapply Forall_impl; [exact Hx|]. auto.
Qed.

Lemma Forall2_with_In {A B} (R : A → B → Prop) xs ys :
  Forall2 R xs ys → Forall2 (λ x y, In x xs ∧ R x y) xs ys.
Proof.
  induction 1 as [|x y xs ys HR _ IH]; constructor.
  - split; [by left|done].
  - eapply Forall2_impl; [exact IH|]. cbn beta. intros ? ? [? ?].
    split; [by right|done].
Qed.

Section rotation_order.
Context `{Node}.
Import RotationMonitor.

Lemma validRotationData_sorted directory files :
  StronglySorted (λ a b : jsstring * Group, localeCompare a.1 b.1 = Gt)
    (validRotationData directory files).
Proof.
  assert (StronglySorted
            (λ a b : jsstring * Group,
               localeCompare a.1 b.1 ≠ Lt ∧ a.1 ≠ b.1)
            (validRotationData directory files)) as Hs.
  { apply StronglySorted_NoDup.
    - unfold validRotationData. apply (array_sort_Sorted by_date_desc).
      + unfold by_date_desc. intros x y.
        rewrite (localeCompare_antisym x.1 y.1).
        by destruct (localeCompare x.1 y.1).
      + unfold by_date_desc. intros x y z. apply localeCompare_trans.
    - unfold validRotationData. rewrite array_sort_Permutation.
      apply filter_fmap_NoDup, group_by_date_NoDup. }
  eapply StronglySorted_weaken; [|exact Hs]. cbn beta.
  intros a b [Hlt Hne]. destruct (localeCompare a.1 b.1) eqn:Hc; try done.
  by apply localeCompare_eq in Hc.
Qed.

Lemma validRotationData_date directory files d g :
  In (d, g) (validRotationData directory files) → length d = 8%nat.
Proof.
  intros (_ & Ht & _)%validRotationData_paired.
  apply has_date_filter in Ht as (file & _ & Htop & <-).
  unfold isTopCSV in Htop. apply andb_prop in Htop as [_ Hre].
  by apply re_dated_inv in Hre as (_ & ? & _).
Qed.

(** X11. The items of the rotation monitor are in strictly descending order
    of their dates: no two items bear the same date. *)
Theorem rotation_items_descending ctx ctx' feed :
  handler ctx = Returned (ctx', feed) →
  StronglySorted (λ a b, localeCompare (item_date a) (item_date b) = Gt)
    (Feed.item feed).
Proof.
  unfold handler.
  destruct (readdir (req_param_directory ctx)) as [files|];
    [|intros [= <- <-]; constructor].
  unfold feed_of_listing.
  destruct (_ || _); cbn [mbind outcome_bind].
  { intros [= <- <-]. constructor. }
  destruct (decide (length (validRotationData (req_param_directory ctx) files)
                    = 0%nat)).
  { rewrite bool_decide_eq_true_2 by done. cbn [mbind outcome_bind].
    intros [= <- <-]. constructor. }
  rewrite bool_decide_eq_false_2 by done.
  destruct (promise_all _ _) as [items|] eqn:Hitems;
    cbn [mbind outcome_bind]; [|done].
  intros [= <- <-]. cbn [Feed.item]. apply promise_all_inv in Hitems.
  assert (Forall2 (λ entry it, In entry (validRotationData
                                           (req_param_directory ctx) files)
                               ∧ make_item entry = Returned it)
            (validRotationData (req_param_directory ctx) files) items) as Hall.
  { by apply Forall2_with_In. }
  eapply StronglySorted_Forall2;
    [|exact Hall|apply validRotationData_sorted].
  cbn beta. intros [d1 g1] [d2 g2] it1 it2 [Hin1 Hit1] [Hin2 Hit2] Hgt.
  apply make_item_title in Hit1 as [Ht1 _].
  apply make_item_title in Hit2 as [Ht2 _].
  unfold item_date. rewrite Ht1, Ht2. cbn [fst].
  rewrite !slice_date_app; [done|..]; by eapply validRotationData_date.
Qed.
End rotation_order.

Lemma rotation_items_descending_witness :
  ∃ ctx' feed,
    @RotationMonitor.handler Sample.rotation_node (Sample.ctx "/data")
    = Returned (ctx', feed)
    ∧ StronglySorted
        (λ a b, localeCompare (item_date a) (item_date b) = Gt)
        (Feed.item feed).
Proof.
  eexists _, _. split; [vm_compute; reflexivity|].
  eapply (@rotation_items_descending Sample.rotation_node
            (Sample.ctx "/data")).
  vm_compute. reflexivity.
Defined.

(** ** Publication dates *)

Lemma digits_value_bound acc s :
  forallb is_digit s = true →
  digits_value acc s < (acc + 1) * 10 ^ N.of_nat (length s).
Proof.
  revert acc. induction s as [|c s IH]; intros acc Hs.
  - cbn [digits_value length]. change (10 ^ N.of_nat 0) with 1. lia.
  - cbn [forallb] in Hs. apply andb_prop in Hs as [Hc Hs].
    cbn [digits_value length]. rewrite Hc.
    specialize (IH (10 * acc + (c - 48)) Hs).
    unfold is_digit in Hc. apply andb_prop in Hc as [Hlo Hhi].
    apply N.leb_le in Hlo, Hhi.
    rewrite Nat2N.inj_succ, N.pow_succ_r'. nia.
Qed.

Lemma parseInt_digits s k :
  forallb is_digit s = true → length s = S k →
  ∃ v, parseInt s = Some v ∧ (0 ≤ v < 10 ^ Z.of_nat (S k))%Z.
Proof.
  intros Hs Hlen. destruct s as [|c s]; [done|].
  pose proof (digits_value_bound 0 (c :: s) Hs) as Hb.
  unfold parseInt. cbn [forallb] in Hs. apply andb_prop in Hs as [-> _].
  eexists. split; [done|]. rewrite Hlen in Hb.
  split; [lia|].
  rewrite N.add_0_l, N.mul_1_l in Hb. apply N2Z.inj_lt in Hb.
  rewrite N2Z.inj_pow, nat_N_Z in Hb. exact Hb.
Qed.

Lemma slice_digits i j s :
  forallb is_digit s = true → forallb is_digit (slice i j s) = true.
Proof.
  rewrite !forallb_forall. intros Hs c Hc. apply Hs.
  unfold slice in Hc. apply list_elem_of_In in Hc.
  apply list_elem_of_In. by eapply subseteq_drop, subseteq_take.
Qed.

Lemma date_of_digits d :
  length d = 8%nat → forallb is_digit d = true →
  date_from_digits d
    (new_Date (parseInt (slice 0 4 d))
       ((λ m, m - 1)%Z <$> parseInt (slice 4 6 d))
       (parseInt (slice 6 8 d))).
Proof.
  intros Hlen Hd.
  destruct (parseInt_digits (slice 0 4 d) 3) as (y & Hy' & Hy);
    [by apply slice_digits|unfold slice; rewrite length_take, length_drop; lia|].
  destruct (parseInt_digits (slice 4 6 d) 1) as (m & Hm' & Hm);
    [by apply slice_digits|unfold slice; rewrite length_take, length_drop; lia|].
  destruct (parseInt_digits (slice 6 8 d) 1) as (dd & Hdd' & Hdd);
    [by apply slice_digits|unfold slice; rewrite length_take, length_drop; lia|].
  exists y, m, dd. rewrite Hy', Hm', Hdd'. repeat split; try done.
  all: change (10 ^ Z.of_nat 4)%Z with 10000%Z in Hy;
    change (10 ^ Z.of_nat 2)%Z with 100%Z in Hm, Hdd; lia.
Qed.

Lemma rotation_make_item_pubDate `{Node} d g it :
  RotationMonitor.make_item (d, g) = Returned it →
  Item.pubDate it
  = match
      new_Date (parseInt (slice 0 4 d))
        ((λ m, m - 1)%Z <$> parseInt (slice 4 6 d))
        (parseInt (slice 6 8 d))
    with
    | InvalidDate => DateNow
    | date => date
    end.
Proof.
  unfold RotationMonitor.make_item.
  destruct (readFile (RotationMonitor.top g)) as [topContent|]; [|done].
  cbn [mbind outcome_bind]. rewrite rotation_parseCSV_returns.
  cbn [mbind outcome_bind].
  destruct (readFile (RotationMonitor.bottom g)) as [bottomContent|]; [|done].
  cbn [mbind outcome_bind]. rewrite rotation_parseCSV_returns.
  cbn [mbind outcome_bind]. by intros <-%Returned_inj.
Qed.

(** X12. Every item of either route carries the date new Date(y, m - 1, d)
    where y, m and d are the numbers written by the first four, the next
    two and the last two digits of the date its title starts with.  The
    date is never invalid and the rotation monitor never falls back to the
    current time; month and day are not checked against the calendar. *)
Theorem items_pubDate `{Node} ctx files :
  readdir (req_param_directory ctx) = Returned files →
  (∀ feed,
     StockPicker.handler ctx = Returned feed →
     Forall (λ it, date_from_digits (item_date it) (Item.pubDate it))
       (Feed.item feed))
  ∧ (∀ ctx' feed,
       RotationMonitor.handler ctx = Returned (ctx', feed) →
       Forall (λ it, date_from_digits (item_date it) (Item.pubDate it))
         (Feed.item feed)).
Proof.
  intros Hdir. split.
  - intros feed Hfeed. apply Forall_forall. intros it Hit.
    pose proof (handler_items ctx files feed Hdir Hfeed) as Hall.
    apply list_elem_of_In in Hit.
    destruct (Forall2_In_r _ _ _ _ Hall Hit) as (file & _ & Hmake & Hm).
    rewrite (make_item_date _ _ _ Hm Hmake).
    destruct (make_item_read _ _ _ Hmake) as [content Hread].
    apply is_stock_file_re in Hm.
    rewrite (make_item_matched _ _ _ Hm Hread) in Hmake.
    apply Returned_inj in Hmake as <-. cbn [Item.pubDate].
    destruct (re_selected_stocks_inv _ Hm) as (d & Hname & Hlen & Hdig & _).
    assert (take 8 (name file) = d) as ->
      by (by rewrite Hname, take_app_length').
    assert (date_of file = d) as ->
      by (unfold date_of; by rewrite Hname, slice_date_app).
    by apply date_of_digits.
  - intros ctx' feed Hfeed. apply Forall_forall. intros it Hit.
    apply list_elem_of_In in Hit.
    destruct (handler_items_from_valid ctx files ctx' feed it Hdir Hfeed Hit)
      as ([d g] & Hvalid & Hmake).
    apply validRotationData_paired in Hvalid as (_ & Ht & _).
    apply has_date_filter in Ht as (file & _ & Htop & <-).
    unfold RotationMonitor.isTopCSV in Htop.
    apply andb_prop in Htop as [_ (_ & Hlen & Hdig)%re_dated_inv].
    fold (date_of file) in Hlen, Hdig.
    pose proof (date_of_digits _ Hlen Hdig) as Hdate.
    pose proof (make_item_title _ _ Hmake) as [Htitle _]. cbn [fst] in Htitle.
    apply rotation_make_item_pubDate in Hmake.
    unfold item_date. rewrite Htitle, slice_date_app by done.
    rewrite Hmake. destruct Hdate as (y & m & dd & Hy & Hm & Hdd & Hd & Hr).
    rewrite Hd. by exists y, m, dd.
Qed.

Lemma items_pubDate_witness :
  (∀ feed,
     @StockPicker.handler Sample.same_date_node (Sample.ctx "/data")
     = Returned feed →
     Forall (λ it, date_from_digits (item_date it) (Item.pubDate it))
       (Feed.item feed))
  ∧ (∀ ctx' feed,
       @RotationMonitor.handler Sample.same_date_node (Sample.ctx "/data")
       = Returned (ctx', feed) →
       Forall (λ it, date_from_digits (item_date it) (Item.pubDate it))
         (Feed.item feed)).
Proof.
  apply (@items_pubDate Sample.same_date_node (Sample.ctx "/data")
           (fst <$> Sample.same_date_entries)).
  reflexivity.
Defined.

(** A name with month 13 and day 99 is accepted; its date is
    new Date(2024, 12, 99), which is no calendar date as written. *)
Example stockpicker_date_not_checked :
  ∃ feed it,
    @StockPicker.handler Sample.same_date_node (Sample.ctx "/data")
    = Returned feed
    ∧ Feed.item feed !! 0%nat = Some it
    ∧ Item.pubDate it = DateOf 2024 12 99
    ∧ calendar_date (Item.pubDate it) = None.
Proof. eexists _, _. repeat split; vm_compute; reflexivity. Qed.

(** ** The file name patterns *)

Lemma re_dated_drop suffix n :
  RotationMonitor.re_dated suffix n = true → drop 8 n = suffix.
Proof.
  unfold RotationMonitor.re_dated. rewrite !andb_true_iff, !bool_decide_eq_true.
  by intros [_ ?].
Qed.

Lemma re_dated_exclusive s1 s2 n :
  s1 ≠ s2 → RotationMonitor.re_dated s1 n = true →
  RotationMonitor.re_dated s2 n = false.
Proof.
  intros Hne H1%re_dated_drop. apply not_true_is_false.
  intros H2%re_dated_drop. congruence.
Qed.

Lemma re_selected_not_dated suffix n :
  bool_decide
    (drop (length (drop 1 suffix) - length StockPicker.selected_suffix)
       (drop 1 suffix) = StockPicker.selected_suffix) = false →
  StockPicker.re_selected_stocks n = true →
  RotationMonitor.re_dated suffix n = false.
Proof.
  intros Hs Hsel. apply not_true_is_false. intros Hd%re_dated_drop.
  unfold StockPicker.re_selected_stocks in Hsel.
  rewrite !andb_true_iff in Hsel. destruct Hsel as [_ Hsuf].
  change 9%nat with (8 + 1)%nat in Hsuf. rewrite <- drop_drop, Hd in Hsuf.
  by rewrite Hsuf in Hs.
Qed.

(** X13. No file name is accepted by two patterns: a selected-stocks file
    is no top, bottom or image file of the rotation monitor, and the three
    kinds of the rotation monitor exclude each other. *)
Theorem patterns_exclusive file :
  (StockPicker.is_stock_file file = true →
   RotationMonitor.isTopCSV file = false
   ∧ RotationMonitor.isBottomCSV file = false
   ∧ RotationMonitor.isImage file = false)
  ∧ (RotationMonitor.isTopCSV file = true →
     RotationMonitor.isBottomCSV file = false
     ∧ RotationMonitor.isImage file = false)
  ∧ (RotationMonitor.isBottomCSV file = true →
     RotationMonitor.isImage file = false).
Proof.
  unfold RotationMonitor.isTopCSV, RotationMonitor.isBottomCSV,
    RotationMonitor.isImage.
  split; [|split].
  - intros Hre%is_stock_file_re.
    rewrite (re_selected_not_dated RotationMonitor.top_suffix (name file)
               ltac:(vm_compute; reflexivity) Hre).
    rewrite (re_selected_not_dated RotationMonitor.bottom_suffix (name file)
               ltac:(vm_compute; reflexivity) Hre).
    rewrite (re_selected_not_dated RotationMonitor.image_suffix (name file)
               ltac:(vm_compute; reflexivity) Hre).
    by rewrite !andb_false_r.
  - intros [_ Hre]%andb_prop.
    rewrite (re_dated_exclusive RotationMonitor.top_suffix
               RotationMonitor.bottom_suffix _) by
      (done || (intros Heq; vm_compute in Heq; discriminate Heq)).
    rewrite (re_dated_exclusive RotationMonitor.top_suffix
               RotationMonitor.image_suffix _) by
      (done || (intros Heq; vm_compute in Heq; discriminate Heq)).
    by rewrite !andb_false_r.
  - intros [_ Hre]%andb_prop.
    rewrite (re_dated_exclusive RotationMonitor.bottom_suffix
               RotationMonitor.image_suffix _) by
      (done || (intros Heq; vm_compute in Heq; discriminate Heq)).
    by rewrite !andb_false_r.
Qed.

Lemma patterns_exclusive_witness :
  RotationMonitor.isBottomCSV
    (Sample.file "20240102_top_industry_stocks.csv") = false
  ∧ RotationMonitor.isImage
      (Sample.file "20240102_top_industry_stocks.csv") = false.
Proof.
  apply (patterns_exclusive (Sample.file "20240102_top_industry_stocks.csv")).
  vm_compute. reflexivity.
Defined.

(** ** The type label of the stock picker *)

Lemma split_first_prefix sep s :
  ∃ piece pieces,
    split sep s = piece :: pieces
    ∧ (sep ∉ piece)
    ∧ (s = piece ∨ ∃ rest, s = piece ++ sep :: rest).
Proof.
  induction s as [|c s (piece & pieces & Hs & Hp & Hrest)].
  - exists [], []. split; [done|]. split; [by intros ?%elem_of_nil|by left].
  - rewrite split_cons, Hs. destruct (N.eqb_spec c sep) as [->|Hne].
    + exists [], (piece :: pieces). split; [done|].
      split; [by intros ?%elem_of_nil|]. right. by exists s.
    + exists (c :: piece), pieces. split; [done|]. split.
      * intros [?|?]%elem_of_cons; [congruence|done].
      * destruct Hrest as [->|[rest ->]]; [by left|right; by exists rest].
Qed.

Lemma selected_suffix_cons :
  StockPicker.selected_suffix = ch "_" :: js "selected_stocks.csv".
Proof. vm_compute. reflexivity. Qed.

Section stockpicker_label.
Context `{Node}.
Import StockPicker.

Lemma label_of_prefix n :
  re_selected_stocks n = true →
  (ch "_" ∉ label_of n)
  ∧ (type_part n = label_of n
     ∨ ∃ rest, type_part n = label_of n ++ ch "_" :: rest).
Proof.
  intros (d & Hname & Hlen & _)%re_selected_stocks_inv. unfold label_of.
  assert (drop 9 n = type_part n ++ selected_suffix) as ->.
  { rewrite Hname at 1. change 9%nat with (8 + 1)%nat. rewrite <- drop_drop.
    by rewrite drop_app_length'. }
  rewrite selected_suffix_cons, split_app.
  destruct (split_first_prefix (ch "_") (type_part n))
    as (piece & pieces & -> & Hp & Hrest).
  done.
Qed.

(** X14. For every matched file the type the handler uses is the part of
    the name between the first and the second underscore: it has no
    underscore, it is the whole part between the date and
    [_selected_stocks.csv] or what precedes the first underscore of that
    part, it is the category of the item, and with its first letter in
    upper case it stands in the title. *)
Theorem stockpicker_label ctx files file :
  readdir (req_param_directory ctx) = Returned files →
  (∀ file, In file files → is_stock_file file = true →
     ∃ content,
       readFile (path_join (req_param_directory ctx) (name file))
       = Returned content) →
  In file files → is_stock_file file = true →
  ∃ feed it label,
    handler ctx = Returned feed ∧ In it (Feed.item feed)
    ∧ (ch "_" ∉ label)
    ∧ (type_part (name file) = label
       ∨ ∃ rest, type_part (name file) = label ++ ch "_" :: rest)
    ∧ Item.category it = [label]
    ∧ Item.title it
      = date_of file ++ js " " ++ capitalize_first label ++ js " 选股结果".
Proof.
  intros Hdir Hread Hin Hm.
  destruct (handler_item_of_file ctx files file Hdir Hread Hin Hm)
    as (feed & it & Hfeed & Hit & Hitem).
  exists feed, it, (label_of (name file)).
  split; [done|]. split; [done|].
  destruct (label_of_prefix _ (is_stock_file_re _ Hm)) as [Hno Hpre].
  split; [done|]. split; [done|].
  destruct (Hread file Hin Hm) as [content Hcontent].
  rewrite (make_item_matched _ _ _ (is_stock_file_re _ Hm) Hcontent) in Hit.
  apply Returned_inj in Hit as <-. cbn [Item.category Item.title].
  split; [done|]. unfold date_of, slice. by rewrite drop_0.
Qed.
End stockpicker_label.

Lemma stockpicker_label_witness :
  ∃ feed it label,
    @StockPicker.handler Sample.stock_node (Sample.ctx "/data") = Returned feed
    ∧ In it (Feed.item feed)
    ∧ (ch "_" ∉ label)
    ∧ (type_part (name (Sample.file "20240103_small_cap_selected_stocks.csv"))
       = label
       ∨ ∃ rest,
           type_part
             (name (Sample.file "20240103_small_cap_selected_stocks.csv"))
           = label ++ ch "_" :: rest)
    ∧ Item.category it = [label]
    ∧ Item.title it
      = date_of (Sample.file "20240103_small_cap_selected_stocks.csv")
          ++ js " " ++ capitalize_first label ++ js " 选股结果".
Proof.
  apply (@stockpicker_label Sample.stock_node (Sample.ctx "/data")
           (fst <$> Sample.stock_entries)).
  - reflexivity.
  - intros file Hin Hm. each_entry Hin; try discriminate Hm;
      eexists; vm_compute; reflexivity.
  - right. right. left. reflexivity.
  - vm_compute; reflexivity.
Defined.

(** ** White space around the text and line endings *)

Lemma trimStart_app_white w s :
  forallb is_white_space w = true → trimStart (w ++ s) = trimStart s.
Proof.
  induction w as [|c w IH]; [done|]. cbn [forallb app trimStart].
  intros [-> Hw]%andb_prop. auto.
Qed.

Lemma trimStart_nil_white s :
  trimStart s = [] → forallb is_white_space s = true.
Proof.
  induction s as [|c s IH]; [done|]. cbn [trimStart forallb].
  destruct (is_white_space c); [auto|done].
Qed.

Lemma trimStart_app s t :
  trimStart s ≠ [] → trimStart (s ++ t) = trimStart s ++ t.
Proof.
  induction s as [|c s IH]; [done|]. cbn [trimStart app].
  destruct (is_white_space c); [auto|done].
Qed.

Lemma trimStart_head s c t :
  trimStart s = c :: t → is_white_space c = false.
Proof.
  induction s as [|x s IH]; [done|]. cbn [trimStart].
  destruct (is_white_space x) eqn:Hx; [auto|]. by intros [= <- _].
Qed.

Lemma trimStart_idemp s : trimStart (trimStart s) = trimStart s.
Proof.
  destruct (trimStart s) as [|c t] eqn:Hs; [done|].
  cbn [trimStart]. by rewrite (trimStart_head _ _ _ Hs).
Qed.

Lemma trimStart_decomp s :
  ∃ w, s = w ++ trimStart s ∧ forallb is_white_space w = true.
Proof.
  induction s as [|c s (w & Hs & Hw)]; [by exists []|]. cbn [trimStart].
  destruct (is_white_space c) eqn:Hc.
  - exists (c :: w). cbn [app forallb]. rewrite Hc, Hw. by rewrite <- Hs.
  - by exists [].
Qed.

Lemma forallb_rev {A} (p : A → bool) l :
  forallb p (rev l) = forallb p l.
Proof.
  induction l as [|x l IH]; [done|]. cbn [rev].
  rewrite forallb_app, IH. cbn [forallb]. by destruct (p x), (forallb p l).
Qed.

Lemma trimEnd_app_white s w :
  forallb is_white_space w = true → trimEnd (s ++ w) = trimEnd s.
Proof.
  intros Hw. unfold trimEnd.
  by rewrite rev_app_distr, trimStart_app_white by by rewrite forallb_rev.
Qed.

Lemma trimEnd_decomp s :
  ∃ w, s = trimEnd s ++ w ∧ forallb is_white_space w = true.
Proof.
  destruct (trimStart_decomp (rev s)) as (w & Hs & Hw).
  exists (rev w). split; [|by rewrite forallb_rev].
  unfold trimEnd. by rewrite <- rev_app_distr, <- Hs, rev_involutive.
Qed.

(** White space on either side of a text does not change what is left of
    it. *)
Lemma trim_pad w1 s w2 :
  forallb is_white_space w1 = true → forallb is_white_space w2 = true →
  trim (w1 ++ s ++ w2) = trim s.
Proof.
  intros H1 H2. unfold trim. rewrite trimStart_app_white by done.
  destruct (trimStart s) as [|c t] eqn:Hs.
  - rewrite trimStart_white; [done|]. rewrite forallb_app, H2.
    by rewrite (trimStart_nil_white _ Hs).
  - rewrite trimStart_app by by rewrite Hs.
    rewrite Hs. by apply trimEnd_app_white.
Qed.

(** X15. White space before and after the text of a file (blank lines, a
    byte order mark) does not change what either parser returns. *)
Theorem parseCSV_padding w1 content w2 :
  forallb is_white_space w1 = true → forallb is_white_space w2 = true →
  StockPicker.parseCSV (w1 ++ content ++ w2) = StockPicker.parseCSV content
  ∧ RotationMonitor.parseCSV (w1 ++ content ++ w2)
    = RotationMonitor.parseCSV content.
Proof.
  intros H1 H2. unfold StockPicker.parseCSV, RotationMonitor.parseCSV.
  by rewrite (trim_pad _ _ _ H1 H2).
Qed.

Lemma parseCSV_padding_witness :
  StockPicker.parseCSV ([0xFEFF; LF] ++ Sample.stocks_csv ++ [LF; 0x20; LF])
  = StockPicker.parseCSV Sample.stocks_csv
  ∧ RotationMonitor.parseCSV
      ([0xFEFF; LF] ++ Sample.stocks_csv ++ [LF; 0x20; LF])
    = RotationMonitor.parseCSV Sample.stocks_csv.
Proof.
  apply (parseCSV_padding [0xFEFF; LF] Sample.stocks_csv [LF; 0x20; LF]);
    vm_compute; reflexivity.
Defined.

Lemma crlf_app a b : crlf (a ++ b) = crlf a ++ crlf b.
Proof. apply flat_map_app. Qed.

Lemma crlf_cons_other c s : c ≠ LF → crlf (c :: s) = c :: crlf s.
Proof.
  intros Hc. unfold crlf. cbn [flat_map].
  by apply N.eqb_neq in Hc as ->.
Qed.

Lemma white_not_LF c : is_white_space c = false → c ≠ LF.
Proof. by intros Hc ->. Qed.

Lemma crlf_white w :
  forallb is_white_space w = true → forallb is_white_space (crlf w) = true.
Proof.
  induction w as [|c w IH]; [done|]. cbn [forallb].
  intros [Hc Hw]%andb_prop. change (c :: w) with ([c] ++ w).
  rewrite crlf_app, forallb_app, (IH Hw), andb_true_r.
  unfold crlf. cbn [flat_map]. destruct (c =? LF); [done|].
  cbn [app forallb]. by rewrite Hc.
Qed.

(** A trimmed text stays trimmed when its line feeds become CRLF. *)
Lemma trim_crlf_trimmed s : trim (crlf (trim s)) = crlf (trim s).
Proof.
  assert (trimStart (trim s) = trim s) as Hstart.
  { unfold trim. destruct (trimEnd_decomp (trimStart s)) as (w & Hs & Hw).
    destruct (trimEnd (trimStart s)) as [|c t] eqn:Ht; [done|].
    cbn [trimStart]. destruct (trimStart s) as [|c' t'] eqn:Hs'; [done|].
    injection Hs as <- _. by rewrite (trimStart_head _ _ _ Hs'). }
  assert (trimStart (rev (trim s)) = rev (trim s)) as Hend.
  { unfold trim, trimEnd. by rewrite rev_involutive, trimStart_idemp. }
  unfold trim at 1.
  assert (trimStart (crlf (trim s)) = crlf (trim s)) as ->.
  { destruct (trim s) as [|c t]; [done|]. cbn [trimStart] in Hstart.
    destruct (is_white_space c) eqn:Hc.
    - exfalso. destruct (trimStart_decomp t) as (w & Ht & _).
      apply (f_equal length) in Hstart, Ht. rewrite length_app in Ht.
      cbn [length] in Hstart. lia.
    - rewrite crlf_cons_other by by apply white_not_LF.
      cbn [trimStart]. by rewrite Hc. }
  unfold trimEnd.
  destruct (rev (trim s)) as [|c t] eqn:Hrev.
  - apply (f_equal (@rev N)) in Hrev. rewrite rev_involutive in Hrev.
    by rewrite Hrev.
  - apply (f_equal (@rev N)) in Hrev. rewrite rev_involutive in Hrev.
    cbn [rev] in Hrev. rewrite Hrev. cbn [trimStart] in Hend.
    destruct (is_white_space c) eqn:Hc.
    + exfalso. destruct (trimStart_decomp t) as (w & Ht & _).
      apply (f_equal length) in Hend, Ht. rewrite length_app in Ht.
      cbn [length] in Hend. lia.
    + rewrite crlf_app, (crlf_cons_other c []) by by apply white_not_LF.
      rewrite rev_app_distr. cbn [crlf flat_map rev app trimStart].
      rewrite Hc. cbn [rev]. by rewrite rev_involutive.
Qed.

Lemma trim_crlf s : trim (crlf s) = crlf (trim s).
Proof.
  destruct (trimStart_decomp s) as (w1 & Hs1 & Hw1).
  destruct (trimEnd_decomp (trimStart s)) as (w2 & Hs2 & Hw2).
  fold (trim s) in Hs2. rewrite Hs1 at 1. rewrite Hs2.
  rewrite !crlf_app, trim_pad by by apply crlf_white.
  apply trim_crlf_trimmed.
Qed.

Lemma split_crlf s : split LF (crlf s) = cr_lines (split LF s).
Proof.
  induction s as [|c s IH]; [done|].
  destruct (split_lookup_0 LF s) as [p Hp].
  destruct (split LF s) as [|p' ps] eqn:Hs; [done|].
  destruct (N.eqb_spec c LF) as [->|Hc].
  - unfold crlf. cbn [flat_map]. rewrite N.eqb_refl. fold (crlf s).
    cbn [app]. rewrite (split_cons LF CR), (split_cons LF LF), N.eqb_refl.
    change (CR =? LF) with false. cbn iota.
    rewrite IH, (split_cons LF LF s), N.eqb_refl, Hs. done.
  - rewrite crlf_cons_other by done. rewrite !split_cons, IH, Hs.
    apply N.eqb_neq in Hc as ->. by destruct ps.
Qed.

Lemma split_snoc sep s c :
  c ≠ sep → split sep (s ++ [c]) = snoc_last c (split sep s).
Proof.
  intros Hc. induction s as [|x s IH].
  - cbn [app]. rewrite split_cons. by apply N.eqb_neq in Hc as ->.
  - cbn [app]. rewrite !split_cons, IH.
    destruct (split_lookup_0 sep s) as [p Hp].
    destruct (split sep s) as [|p' ps] eqn:Hs; [done|].
    destruct (x =? sep); [done|]. by destruct ps.
Qed.

Lemma trim_snoc_CR s : trim (s ++ [CR]) = trim s.
Proof. by apply (trim_pad [] s [CR]). Qed.

Lemma fields_snoc_CR line :
  trim <$> split (ch ",") (line ++ [CR]) = trim <$> split (ch ",") line.
Proof.
  rewrite split_snoc by done.
  induction (split (ch ",") line) as [|p [|p' ps] IH]; [done| |].
  - cbn [snoc_last fmap list_fmap]. by rewrite trim_snoc_CR.
  - change (snoc_last CR (p :: p' :: ps)) with (p :: snoc_last CR (p' :: ps)).
    etrans; [apply fmap_cons|]. rewrite IH. symmetry. apply fmap_cons.
Qed.

Lemma record_of_snoc_CR headers line :
  StockPicker.record_of headers (line ++ [CR])
  = StockPicker.record_of headers line
  ∧ RotationMonitor.record_of headers (line ++ [CR])
    = RotationMonitor.record_of headers line.
Proof.
  rewrite !stockpicker_record_of_fill, !rotation_record_of_fill.
  by rewrite fields_snoc_CR.
Qed.

Lemma cr_lines_cases lines :
  Forall2 (λ line line', line' = line ∨ line' = line ++ [CR])
    lines (cr_lines lines).
Proof.
  induction lines as [|p [|p' ps] IH]; [constructor|repeat constructor; auto|].
  change (cr_lines (p :: p' :: ps)) with ((p ++ [CR]) :: cr_lines (p' :: ps)).
  constructor; auto.
Qed.

Lemma cr_lines_head p ps :
  ∃ p', cr_lines (p :: ps) = p' :: cr_lines ps ∧ (p' = p ∨ p' = p ++ [CR]).
Proof. destruct ps; eexists; split; eauto. Qed.

Lemma records_cr_lines {R} (record_of : jsstring → R) lines :
  (∀ line, record_of (line ++ [CR]) = record_of line) →
  record_of
    <$> List.filter (λ line, negb (bool_decide (trim line = [])))
          (cr_lines lines)
  = record_of
      <$> List.filter (λ line, negb (bool_decide (trim line = []))) lines.
Proof.
  intros Hcr. induction (cr_lines_cases lines) as [|p p' ps ps' Hp _ IH];
    [done|].
  cbn [List.filter].
  assert (trim p' = trim p) as -> by (destruct Hp as [->| ->];
                                      [done|apply trim_snoc_CR]).
  destruct (negb _); [|done]. rewrite !fmap_cons, IH.
  by destruct Hp as [->| ->]; rewrite ?Hcr.
Qed.

(** X16. A file with CRLF line ends parses to the same records as the file
    with LF line ends: the carriage returns are trimmed away with the cells
    and with the blank lines. *)
Theorem parseCSV_crlf content :
  StockPicker.parseCSV (crlf content) = StockPicker.parseCSV content
  ∧ RotationMonitor.parseCSV (crlf content)
    = RotationMonitor.parseCSV content.
Proof.
  rewrite !parseCSV_returns, !rotation_parseCSV_returns.
  unfold header_fields, data_lines. rewrite trim_crlf, split_crlf.
  destruct (split_lookup_0 LF (trim content)) as [p Hp].
  destruct (split LF (trim content)) as [|p0 ps]; [done|].
  destruct (cr_lines_head p0 ps) as (p' & -> & Hp').
  cbn [lookup list_lookup default drop]. unfold id. rewrite !drop_0.
  assert (trim <$> split (ch ",") p' = trim <$> split (ch ",") p0) as ->.
  { destruct Hp' as [->| ->]; [done|apply fields_snoc_CR]. }
  split; f_equal; apply records_cr_lines; intros line;
    apply record_of_snoc_CR.
Qed.

(** The example file with CRLF line ends. *)
Example parseCSV_crlf_example :
  crlf Sample.stocks_csv
  = js "ts_code,target_weight,name,industry,pe,pe_percentile" ++ [CR; LF]
    ++ js "000001.SZ,0.05,PingAn,Banking,10.2,50" ++ [CR; LF]
  ∧ StockPicker.parseCSV (crlf Sample.stocks_csv)
    = StockPicker.parseCSV Sample.stocks_csv.
Proof. split; [vm_compute; reflexivity|apply parseCSV_crlf]. Qed.
